(** * Fathom meetings server: cursor drain, cache and handlers

    A shallow embedding of the two Express servers of the repository that
    proxy the Fathom recordings API: the one that talks HTTP itself
    ([src/unnamed/part_000], called the direct server below) and the one
    that goes through the SDK ([src/api/index.js], in [Module Sdk]); and
    the properties of the pagination drain, of the in-memory cache and of
    the two data handlers. *)

From Stdlib Require Import ZArith List String Ascii Bool Lia.
From Stdlib Require Import DecimalPos DecimalN DecimalString.
Import ListNotations.
Local Open Scope string_scope.
Local Open Scope Z_scope.

Set Warnings "-register-all".

(* ===================================================================== *)
(** ** JavaScript values *)
(* ===================================================================== *)

Module JS.

(** The values the server handles: what [JSON.parse] produces, plus
    [undefined] (the result of reading a missing member) and BigInt (a
    value [JSON.stringify] refuses).  Numbers are integers here: the code
    only tests them for zero, compares a length with zero and prints a
    status or an id.  A string is its UTF-8 bytes (see below).  An object
    is its member list in insertion order;
    keys are unique after [JSON.parse], so the first binding is the
    binding. *)
Inductive value : Type :=
| VUndef
| VNull
| VBool (b : bool)
| VNum (n : Z)
| VBigInt (n : Z)
| VStr (s : string)
| VArr (elems : list value)
| VObj (members : list (string * value)).

(** [!!v]: ToBoolean. *)
Definition truthy (v : value) : bool :=
  match v with
  | VUndef | VNull => false
  | VBool b => b
  | VNum n | VBigInt n => negb (n =? 0)
  | VStr s => negb (String.eqb s "")
  | VArr _ | VObj _ => true
  end.

(** [v === null || v === undefined]. *)
Definition nullish (v : value) : bool :=
  match v with
  | VUndef | VNull => true
  | _ => false
  end.

(** [a || b] on values. *)
Definition or_else (a b : value) : value := if truthy a then a else b.

Definition isArray (v : value) : bool :=
  match v with
  | VArr _ => true
  | _ => false
  end.

(** [typeof v]. *)
Definition typeof (v : value) : string :=
  match v with
  | VUndef => "undefined"
  | VNull | VArr _ | VObj _ => "object"
  | VBool _ => "boolean"
  | VNum _ => "number"
  | VBigInt _ => "bigint"
  | VStr _ => "string"
  end.

(** *** Strings

    A string is held as the bytes of its UTF-8 encoding (a lone
    surrogate, which UTF-8 leaves out, as the three bytes the same scheme
    gives its code), so that an ASCII string is its characters.  The
    engine counts a string in UTF-16 code units and iterates it by code
    points. *)

(** The number of bytes of the sequence that a byte opens. *)
Definition utf8_width (c : ascii) : nat :=
  let n := nat_of_ascii c in
  if (n <? 192)%nat then 1%nat
  else if (n <? 224)%nat then 2%nat
  else if (n <? 240)%nat then 3%nat
  else 4%nat.

(** The code points of a string, each as the string of its bytes. *)
Fixpoint code_points (s : string) : list string :=
  match s with
  | EmptyString => []
  | String a r =>
      match utf8_width a, r with
      | 2%nat, String b t => String a (String b "") :: code_points t
      | 3%nat, String b (String c t) =>
          String a (String b (String c "")) :: code_points t
      | 4%nat, String b (String c (String d t)) =>
          String a (String b (String c (String d ""))) :: code_points t
      | _, _ => String a "" :: code_points r
      end
  end.

(** A code point of four bytes lies beyond U+FFFF and takes two UTF-16
    code units. *)
Definition utf16_units (cp : string) : nat :=
  if (String.length cp =? 4)%nat then 2%nat else 1%nat.

(** [s.length]. *)
Definition utf16_length (s : string) : nat :=
  list_sum (map utf16_units (code_points s)).

(** The UTF-8 bytes of a code point. *)
Definition utf8 (cp : N) : string :=
  let byte (n : N) := ascii_of_N n in
  (if cp <? 128 then String (byte cp) ""
   else if cp <? 2048 then
     String (byte (192 + cp / 64)) (String (byte (128 + cp mod 64)) "")
   else if cp <? 65536 then
     String (byte (224 + cp / 4096))
       (String (byte (128 + (cp / 64) mod 64))
          (String (byte (128 + cp mod 64)) ""))
   else
     String (byte (240 + cp / 262144))
       (String (byte (128 + (cp / 4096) mod 64))
          (String (byte (128 + (cp / 64) mod 64))
             (String (byte (128 + cp mod 64)) ""))))%N.

(** White space and line terminators: what [trim], [parseInt] and the
    conversion of a string to a number skip.  Tab, line feed, vertical
    tab, form feed, carriage return, the space separators of Unicode
    (U+0020, U+00A0, U+1680, U+2000 to U+200A, U+202F, U+205F, U+3000),
    the line and paragraph separators and the byte order mark. *)
Definition white_space : list N :=
  [9; 10; 11; 12; 13; 32; 160; 5760;
   8192; 8193; 8194; 8195; 8196; 8197; 8198; 8199; 8200; 8201; 8202;
   8232; 8233; 8239; 8287; 12288; 65279]%N.

Definition is_white_space (cp : string) : bool :=
  existsb (fun w => String.eqb cp (utf8 w)) white_space.

Fixpoint drop_white (l : list string) : list string :=
  match l with
  | cp :: rest => if is_white_space cp then drop_white rest else l
  | [] => []
  end.

(** [s.trimStart()]. *)
Definition trim_start (s : string) : string :=
  String.concat "" (drop_white (code_points s)).

(** [s.trim()]. *)
Definition trim (s : string) : string :=
  String.concat "" (rev (drop_white (rev (drop_white (code_points s))))).

(** *** Members *)

Fixpoint lookup (k : string) (ms : list (string * value)) : value :=
  match ms with
  | [] => VUndef
  | (k', v) :: rest => if String.eqb k k' then v else lookup k rest
  end.

(** [v.k] for a [v] that is neither [null] nor [undefined], and for the member
    names the server reads (none of them is inherited from a
    prototype, except [length] of arrays and strings). *)
Definition member (v : value) (k : string) : value :=
  match v with
  | VObj ms => lookup k ms
  | VArr l => if String.eqb k "length" then VNum (Z.of_nat (List.length l)) else VUndef
  | VStr s => if String.eqb k "length" then VNum (Z.of_nat (utf16_length s)) else VUndef
  | _ => VUndef
  end.

(** [v?.k]: [undefined] on [null] and [undefined]. *)
Definition member_opt (v : value) (k : string) : value :=
  if nullish v then VUndef else member v k.

(** [hay.includes(needle)]. *)
Fixpoint includes (needle hay : string) : bool :=
  String.prefix needle hay
  || match hay with
     | EmptyString => false
     | String _ rest => includes needle rest
     end.

(** Decimal rendering of an integer, as a template literal prints it. *)
Definition string_of_Z (n : Z) : string := NilZero.string_of_int (Z.to_int n).

(** *** Numbers as [parseInt] and the comparison [x > 0] see them *)

(** Not a number, an infinity, or the real number
    [digits * 10 ^ exponent] with its sign (kept apart, so that -0 is
    told from 0). *)
Inductive number : Type :=
| NaN
| Infinite (negative : bool)
| Finite (negative : bool) (digits : N) (exponent : Z).

(** The Number that is the integer [n]. *)
Definition integer (n : Z) : number := Finite (n <? 0) (Z.abs_N n) 0.

Definition isNaN (x : number) : bool :=
  match x with
  | NaN => true
  | _ => false
  end.

Definition digit_val (c : ascii) : option N :=
  let n := N_of_ascii c in
  (if (48 <=? n) && (n <=? 57) then Some (n - 48) else None)%N.

Definition hex_val (c : ascii) : option N :=
  let n := N_of_ascii c in
  (if (48 <=? n) && (n <=? 57) then Some (n - 48)
   else if (97 <=? n) && (n <=? 102) then Some (n - 87)
   else if (65 <=? n) && (n <=? 70) then Some (n - 55)
   else None)%N.

Definition octal_val (c : ascii) : option N :=
  let n := N_of_ascii c in
  (if (48 <=? n) && (n <=? 55) then Some (n - 48) else None)%N.

Definition binary_val (c : ascii) : option N :=
  let n := N_of_ascii c in
  (if (48 <=? n) && (n <=? 49) then Some (n - 48) else None)%N.

(** The longest prefix of [s] made of digits of the radix: the number it
    writes on top of [acc], how many digits it has, and what follows
    it. *)
Fixpoint digits_prefix (dv : ascii -> option N) (radix : N) (acc : N) (s : string)
    : N * nat * string :=
  match s with
  | String c rest =>
      match dv c with
      | Some d =>
          let '(v, n, tail) := digits_prefix dv radix (acc * radix + d)%N rest in
          (v, S n, tail)
      | None => (acc, 0%nat, s)
      end
  | EmptyString => (acc, 0%nat, s)
  end.

(** One optional sign. *)
Definition signed (s : string) : bool * string :=
  match s with
  | String c r =>
      if Ascii.eqb c "-" then (true, r)
      else if Ascii.eqb c "+" then (false, r)
      else (false, s)
  | EmptyString => (false, s)
  end.

(** What stands behind the prefix [0x] (or [0X], and so for the other
    letters), when the string has it. *)
Definition prefixed (lower upper : ascii) (s : string) : option string :=
  match s with
  | String a (String b r) =>
      if Ascii.eqb a "0" && (Ascii.eqb b lower || Ascii.eqb b upper)
      then Some r else None
  | _ => None
  end.

(** The double nearest to a natural number, ties going to the even
    significand; past the largest double it is an infinity. *)
Definition to_double (negative : bool) (n : N) : number :=
  (if n <? 2 ^ 53 then Finite negative n 0
   else
     let shift := N.log2 n - 52 in
     let q := N.shiftr n shift in
     let r := n mod 2 ^ shift in
     let half := 2 ^ (shift - 1) in
     let q' := if (half <? r) || ((r =? half) && N.odd q) then q + 1 else q in
     let m := q' * 2 ^ shift in
     if 2 ^ 1024 <=? m then Infinite negative else Finite negative m 0)%N.

(** [parseInt(s)], radix left out: white space, a sign, [0x] or [0X] for
    base 16, then the digits up to the first character that is none. *)
Definition parseInt (s : string) : number :=
  let '(negative, unsigned) := signed (trim_start s) in
  let '(dv, radix, digits) :=
    match prefixed "x" "X" unsigned with
    | Some r => (hex_val, 16%N, r)
    | None => (digit_val, 10%N, unsigned)
    end in
  let '(n, count, _) := digits_prefix dv radix 0%N digits in
  match count with
  | O => NaN
  | S _ => to_double negative n
  end.

(** A literal in base 2, 8 or 16 behind its prefix: digits only, and at
    least one. *)
Definition radix_literal (dv : ascii -> option N) (radix : N) (s : string) : number :=
  match digits_prefix dv radix 0%N s with
  | (n, S _, EmptyString) => Finite false n 0
  | _ => NaN
  end.

(** A decimal literal: a sign, then [Infinity] or digits with an
    optional fraction and an optional exponent, one digit at least before
    or after the point. *)
Definition decimal_literal (s : string) : number :=
  let '(negative, u) := signed s in
  if String.eqb u "Infinity" then Infinite negative
  else
    let '(i, ni, r1) := digits_prefix digit_val 10%N 0%N u in
    let '(f, nf, r2) :=
      match r1 with
      | String c t =>
          if Ascii.eqb c "." then digits_prefix digit_val 10%N i t
          else (i, 0%nat, r1)
      | EmptyString => (i, 0%nat, r1)
      end in
    match (ni + nf)%nat with
    | O => NaN
    | S _ =>
        match r2 with
        | EmptyString => Finite negative f (- Z.of_nat nf)
        | String e t =>
            if Ascii.eqb e "e" || Ascii.eqb e "E" then
              let '(exp_negative, t') := signed t in
              match digits_prefix digit_val 10%N 0%N t' with
              | (x, S _, EmptyString) =>
                  Finite negative f
                    ((if exp_negative then - Z.of_N x else Z.of_N x) - Z.of_nat nf)
              | _ => NaN
              end
            else NaN
        end
    end.

(** The number a string writes, before it is rounded to a double: white
    space around it is dropped, the empty string is 0, and what is no
    numeric literal is NaN. *)
Definition string_to_number (s : string) : number :=
  let body := trim s in
  if String.eqb body "" then Finite false 0 0
  else
    match prefixed "x" "X" body, prefixed "o" "O" body, prefixed "b" "B" body with
    | Some r, _, _ => radix_literal hex_val 16%N r
    | _, Some r, _ => radix_literal octal_val 8%N r
    | _, _, Some r => radix_literal binary_val 2%N r
    | None, None, None => decimal_literal body
    end.

(** The conversion of an object to a primitive goes through its
    [toString] (for an array, through that of each element, by [join]):
    it throws a TypeError when an object holds a member of that name,
    which no value of the model can call. *)
Definition has_key (k : string) (ms : list (string * value)) : bool :=
  existsb (fun kv => String.eqb k (fst kv)) ms.

Fixpoint unprintable (v : value) : bool :=
  match v with
  | VObj ms => has_key "toString" ms
  | VArr l => existsb unprintable l
  | _ => false
  end.

(** The numeric value compared, for a value that converts to a
    primitive.  An array goes through its string form: the empty array is
    the empty string, a singleton is its element's string form, a longer
    one has a comma and is NaN; an object is "[object Object]". *)
Fixpoint to_number (v : value) : number :=
  match v with
  | VUndef => NaN
  | VNull => Finite false 0 0
  | VBool b => Finite false (if b then 1 else 0) 0
  | VNum n | VBigInt n => integer n
  | VStr s => string_to_number s
  | VArr [] => Finite false 0 0
  | VArr [x] =>
      match x with
      | VUndef | VNull => Finite false 0 0
      | VNum _ | VBigInt _ | VStr _ | VArr _ => to_number x
      | VBool _ | VObj _ => NaN
      end
  | VArr _ => NaN
  | VObj _ => NaN
  end.

(** Whether the double nearest to the number is above 0: the number is
    positive and more than half the least double, [2 ^ -1075]. *)
Definition above_zero (x : number) : bool :=
  match x with
  | NaN => false
  | Infinite negative => negb negative
  | Finite negative d e =>
      negb negative && (0 <? d)%N
      && ((0 <=? e) || (10 ^ Z.to_N (- e) <? d * 2 ^ 1075)%N)
  end.

(** [v > 0], for a value that converts to a primitive. *)
Definition gt_zero (v : value) : bool := above_zero (to_number v).

End JS.

Import JS.

(* ===================================================================== *)
(** ** Errors and the upstream client *)
(* ===================================================================== *)

(** A thrown [Error]: the members the server reads.  [fathomRequest] sets
    [status] and [statusCode] together on an HTTP failure and leaves both
    unset otherwise. *)
Record error : Type := mkError {
  status : option Z;
  statusCode : option Z;
  message : string
}.

(** [new Error(msg)]. *)
Definition plain_error (msg : string) : error := mkError None None msg.

(** Outcome of a synchronous or awaited computation. *)
Inductive result (A : Type) : Type :=
| Ok (a : A)
| Throw (e : error).
Arguments Ok {A} a.
Arguments Throw {A} e.

Definition bind {A B : Type} (r : result A) (k : A -> result B) : result B :=
  match r with
  | Ok a => k a
  | Throw e => Throw e
  end.

Notation "x <- r ;; k" := (bind r (fun x => k))
  (at level 61, r at next level, right associativity).

(** What [fetch] and the reading of the body come to, one per request the
    server makes. *)
Inductive fetch_outcome : Type :=
  (** no response: [fetch] rejects with an error of this message *)
| FetchRejects (msg : string)
  (** a response with [response.ok] false *)
| HttpNotOk (st : Z) (statusText body : string)
  (** [response.ok], and the body parses to this JSON value *)
| HttpOk (payload : value)
  (** [response.ok], and [response.json()] rejects with this message *)
| HttpOkBadJson (msg : string).

(** One request as the upstream serves it: the time the awaited call
    takes in milliseconds, and what comes back. *)
Record exchange : Type := mkExchange {
  latency : Z;
  outcome : fetch_outcome
}.

Definition missing_key_error : error := plain_error "FATHOM_API_KEY is not set".

(** [!!process.env.FATHOM_API_KEY]: the credential is set and not
    empty. *)
Definition key_set (apiKey : option string) : bool :=
  match apiKey with
  | Some k => negb (String.eqb k "")
  | None => false
  end.

(** [fathomRequest], past the credential test: the response handling and
    the [catch] that wraps errors that do not already carry the
    "Fathom API error" text.  The promise of [response.json()] is returned
    without [await], so its rejection passes the [catch] untouched. *)
Definition fathomResponse (o : fetch_outcome) : result value :=
  match o with
  | HttpOk payload => Ok payload
  | HttpOkBadJson msg => Throw (plain_error msg)
  | HttpNotOk st statusText body =>
      Throw (mkError (Some st) (Some st)
               ("Fathom API error: " ++ string_of_Z st ++ " " ++ statusText
                  ++ ". " ++ body))
  | FetchRejects msg =>
      if negb (String.eqb msg "") && negb (includes "Fathom API error" msg)
      then Throw (plain_error ("Failed to fetch from Fathom API: " ++ msg))
      else Throw (plain_error msg)
  end.

(** [fathomRequest(endpoint)]: throws before any network call when no
    credential is configured. *)
Definition fathomRequest (apiKey : option string) (o : fetch_outcome) : result value :=
  if key_set apiKey then fathomResponse o else Throw missing_key_error.

(* ===================================================================== *)
(** ** The pagination drain: [fetchAllMeetings] *)
(* ===================================================================== *)

Definition maxRetries : Z := 5.

(** What the drain does that the outside can observe: a request, with the
    value last given to [queryParams.set('cursor', _)] if any (the filter
    parameters are read once from the environment and are the same in
    every request) and the time the request took; and a [setTimeout]
    wait. *)
Inductive event : Type :=
| Request (cursor : option value) (took : Z)
| Wait (ms : Z).

(** The variables of the loop. *)
Record loop_state : Type := mkLoop {
  allMeetings : list value;
  retryCount : Z;
  cursorParam : option value;
  trace : list event
}.

Definition initial : loop_state := mkLoop [] 0 None [].

Definition log (ev : event) (st : loop_state) : loop_state :=
  mkLoop (allMeetings st) (retryCount st) (cursorParam st) (trace st ++ [ev])%list.

(** The engine's messages for reading a member of [null] or [undefined],
    for spreading a value that is not iterable and for an object that
    does not convert to a primitive. *)
Definition null_member_error (v : value) (k : string) : error :=
  plain_error ("Cannot read properties of "
                 ++ (match v with VNull => "null" | _ => "undefined" end)
                 ++ " (reading '" ++ k ++ "')").

Definition not_iterable_error : error :=
  plain_error "Spread syntax requires ...iterable[Symbol.iterator] to be a function".

Definition cannot_convert_error : error :=
  plain_error "Cannot convert object to primitive value".

(** The item extraction of the loop body: the [if]/[else if] chain. *)
Definition extract_items (response : value) : result value :=
  if isArray response then Ok response
  else if nullish response then Throw (null_member_error response "items")
  else if truthy (member response "items") then Ok (member response "items")
  else if truthy (member response "data") && isArray (member response "data")
  then Ok (member response "data")
  else if truthy (member response "data")
          && truthy (member (member response "data") "items")
  then Ok (member (member response "data") "items")
  else Ok (VArr []).

(** [...items] in an argument list: the elements of an array, the code
    points of a string.  (The engine's bound on the number of arguments
    of a call is left out.) *)
Definition spread (items : value) : result (list value) :=
  match items with
  | VArr l => Ok l
  | VStr s => Ok (map VStr (code_points s))
  | _ => Throw not_iterable_error
  end.

(** [if (items && items.length > 0) allMeetings.push(...items)]; the
    comparison throws when the length does not convert to a primitive. *)
Definition push_items (items : value) (acc : list value) : result (list value) :=
  if truthy items then
    if unprintable (member items "length") then Throw cannot_convert_error
    else if gt_zero (member items "length")
    then (l <- spread items ;; Ok (acc ++ l)%list)
    else Ok acc
  else Ok acc.

(** [response.next_cursor || response.cursor ||
     response.pagination?.next_cursor || null], for a response past the
    item extraction (so neither [null] nor [undefined]). *)
Definition extract_cursor (response : value) : value :=
  or_else
    (or_else
       (or_else (member response "next_cursor") (member response "cursor"))
       (member_opt (member response "pagination") "next_cursor"))
    VNull.

(** How one turn of the [while] loop ends. *)
Inductive turn : Type :=
| Again (st : loop_state)      (** back to the loop test, [hasMore] true *)
| Done (st : loop_state)       (** back to the loop test, [hasMore] false *)
| Break (st : loop_state)      (** [break] *)
| Raise (e : error) (st : loop_state).   (** [throw error] *)

(** The test of the [catch] block. *)
Definition is_rate_limit (e : error) : bool :=
  match status e with Some s => s =? 429 | None => false end
  || match statusCode e with Some s => s =? 429 | None => false end
  || includes "429" (message e).

(** The [catch] block, which the two servers share word for word: what
    it decides from the error and [retryCount]. *)
Inductive verdict : Type :=
| Retry (n : Z) (waitTime : Z)   (** [retryCount = n], wait, [continue] *)
| GiveUpNow (n : Z)              (** [retryCount = n], [break] *)
| Rethrow.                       (** [throw error] *)

Definition catch_block (e : error) (retryCount : Z) : verdict :=
  if is_rate_limit e then
    let n := retryCount + 1 in
    if n <=? maxRetries then Retry n (2 ^ n * 1000) else GiveUpNow n
  else Rethrow.

Definition on_error (e : error) (st : loop_state) : turn :=
  match catch_block e (retryCount st) with
  | Retry n waitTime =>
      Again (mkLoop (allMeetings st) n (cursorParam st) (trace st ++ [Wait waitTime])%list)
  | GiveUpNow n => Break (mkLoop (allMeetings st) n (cursorParam st) (trace st))
  | Rethrow => Raise e st
  end.

(** The [try] block once the response is there.  An exception of the
    extraction or of the push leaves [allMeetings] as it was;
    [queryParams.set('cursor', cursor)] turns the cursor into a string
    and throws, after the push, when it cannot. *)
Definition on_response (response : value) (st : loop_state) : turn :=
  match (items <- extract_items response ;; push_items items (allMeetings st)) with
  | Throw e => on_error e st
  | Ok all =>
      let cursor := extract_cursor response in
      let hasMore := negb (nullish cursor) in
      if hasMore then
        if unprintable cursor
        then on_error cannot_convert_error
               (mkLoop all (retryCount st) (cursorParam st) (trace st))
        else Again (mkLoop all 0 (Some cursor) (trace st ++ [Wait 500])%list)
      else Done (mkLoop all 0 (cursorParam st) (trace st))
  end.

(** One turn of the loop, given what the request comes to, for a
    configured credential (the test that opens [fathomRequest] is made
    once, in [fetchAllMeetings] below: the environment does not change
    during a drain). *)
Definition loop_turn (x : exchange) (st : loop_state) : turn :=
  let st1 := log (Request (cursorParam st) (latency x)) st in
  match fathomResponse (outcome x) with
  | Ok response => on_response response st1
  | Throw e => on_error e st1
  end.

(** How the drain ends.  The function returns [allMeetings] both when the
    loop test fails and after [break]; a script that runs out while the
    loop still asks for a page leaves it [Pending]. *)
Inductive completion : Type :=
| Finished (st : loop_state)
| GaveUp (st : loop_state)
| Threw (e : error) (st : loop_state)
| Pending (st : loop_state).

(** The [while (hasMore)] loop over the upstream's answers; the second
    component is the part of the script the drain never asked for. *)
Fixpoint drain_loop (script : list exchange) (st : loop_state)
    : completion * list exchange :=
  match script with
  | [] => (Pending st, [])
  | x :: rest =>
      match loop_turn x st with
      | Again st' => drain_loop rest st'
      | Done st' => (Finished st', rest)
      | Break st' => (GaveUp st', rest)
      | Raise e st' => (Threw e st', rest)
      end
  end.

(** [fetchAllMeetings()].  Without a credential the first
    [fathomRequest] throws before any request is made; the [catch] block
    rethrows it (see [missing_key_not_rate_limit]) and so does the outer
    [catch]. *)
Definition fetchAllMeetings (apiKey : option string) (script : list exchange)
    : completion * list exchange :=
  if key_set apiKey then drain_loop script initial
  else (Threw missing_key_error initial, script).

(** What the caller of [fetchAllMeetings] gets. *)
Definition returned (c : completion) : option (result (list value)) :=
  match c with
  | Finished st | GaveUp st => Some (Ok (allMeetings st))
  | Threw e _ => Some (Throw e)
  | Pending _ => None
  end.

Definition final_state (c : completion) : loop_state :=
  match c with
  | Finished st | GaveUp st | Threw _ st | Pending st => st
  end.

(* ===================================================================== *)
(** ** Record normalization: [serializeMeeting] *)
(* ===================================================================== *)

Definition bigint_error : error := plain_error "Do not know how to serialize a BigInt".
Definition parse_undefined_error : error :=
  plain_error "Unexpected token u in JSON at position 0".

(** [JSON.stringify] followed by [JSON.parse], member by member: [None]
    stands for [undefined], which an object drops and an array turns into
    [null]; a BigInt anywhere throws.  (No value of the model has a
    callable [toJSON].) *)
Fixpoint json_copy (v : value) : result (option value) :=
  match v with
  | VUndef => Ok None
  | VBigInt _ => Throw bigint_error
  | VNull | VBool _ | VNum _ | VStr _ => Ok (Some v)
  | VArr l =>
      l' <- (fix copy_elems (l : list value) : result (list value) :=
               match l with
               | [] => Ok []
               | x :: rest =>
                   x' <- json_copy x ;;
                   rest' <- copy_elems rest ;;
                   Ok (match x' with Some y => y | None => VNull end :: rest')
               end) l ;;
      Ok (Some (VArr l'))
  | VObj ms =>
      ms' <- (fix copy_members (ms : list (string * value))
                : result (list (string * value)) :=
                match ms with
                | [] => Ok []
                | (k, x) :: rest =>
                    x' <- json_copy x ;;
                    rest' <- copy_members rest ;;
                    Ok (match x' with Some y => (k, y) :: rest' | None => rest' end)
                end) ms ;;
      Ok (Some (VObj ms'))
  end.

(** [JSON.parse(JSON.stringify(v))]. *)
Definition json_roundtrip (v : value) : result value :=
  c <- json_copy v ;;
  match c with
  | Some v' => Ok v'
  | None => Throw parse_undefined_error
  end.

(** The object built in the [catch] of [serializeMeeting]. *)
Definition fallback_fields (meeting : value) : value :=
  VObj
    [ ("recording_id", or_else (member meeting "recording_id") (member meeting "id"));
      ("title", or_else (member meeting "title") (member meeting "meeting_title"));
      ("meeting_title", or_else (member meeting "meeting_title") (member meeting "title"));
      ("url", member meeting "url");
      ("share_url", member meeting "share_url");
      ("scheduled_start_time", member meeting "scheduled_start_time");
      ("scheduled_end_time", member meeting "scheduled_end_time");
      ("calendar_invitees_domains_type", member meeting "calendar_invitees_domains_type");
      ("default_summary", member meeting "default_summary");
      ("calendar_invitees", member meeting "calendar_invitees");
      ("created_at", member meeting "created_at");
      ("recording_start_time", member meeting "recording_start_time");
      ("recording_end_time", member meeting "recording_end_time") ].

(** The test "already a plain object". *)
Definition is_plain (meeting : value) : bool :=
  String.eqb (typeof meeting) "object"
  && negb (truthy (member meeting "toJSON"))
  && negb (truthy (member meeting "to_dict")).

(** [serializeMeeting(meeting)]. *)
Definition serializeMeeting (meeting : value) : value :=
  if negb (truthy meeting) then VNull
  else if is_plain meeting then meeting
  else match json_roundtrip meeting with
       | Ok copy => copy
       | Throw _ => fallback_fields meeting
       end.

(** [m !== null]. *)
Definition not_null (m : value) : bool :=
  match m with
  | VNull => false
  | _ => true
  end.

(** [meetings.map(serializeMeeting).filter(m => m !== null)]. *)
Definition serializeAll (meetings : list value) : list value :=
  filter not_null (map serializeMeeting meetings).

(* ===================================================================== *)
(** ** The cache and [GET /api/meetings] *)
(* ===================================================================== *)

(** [5 * 60 * 1000] milliseconds. *)
Definition CACHE_TTL : Z := 5 * 60 * 1000.

(** The two module-level variables; [None] is [null]. *)
Record server : Type := mkServer {
  meetingsCache : option (list value);
  cacheTimestamp : option Z
}.

Definition cold : server := mkServer None None.

(** [meetingsCache && cacheTimestamp && (now - cacheTimestamp) < CACHE_TTL]:
    the cached list on a hit.  An array is truthy even when empty; a
    timestamp is truthy unless it is 0. *)
Definition cache_get (s : server) (now : Z) : option (list value) :=
  match meetingsCache s, cacheTimestamp s with
  | Some records, Some t =>
      if negb (t =? 0) && (now - t <? CACHE_TTL) then Some records else None
  | _, _ => None
  end.

(** [meetingsCache = records; cacheTimestamp = now]. *)
Definition cache_set (records : list value) (now : Z) : server :=
  mkServer (Some records) (Some now).

(** [POST /api/cache/clear]. *)
Definition cache_clear : server := cold.

Record http_response : Type := mkResponse {
  code : Z;
  body : value
}.

(** [error.status || error.statusCode || 500]. *)
Definition error_code (e : error) : Z :=
  match status e with
  | Some s => if s =? 0 then
                match statusCode e with
                | Some c => if c =? 0 then 500 else c
                | None => 500
                end
              else s
  | None => match statusCode e with
            | Some c => if c =? 0 then 500 else c
            | None => 500
            end
  end.

(** The time a trace takes: the waits and the requests. *)
Definition duration (ev : event) : Z :=
  match ev with
  | Request _ took => took
  | Wait ms => ms
  end.

Definition elapsed (tr : list event) : Z :=
  fold_right (fun ev t => duration ev + t) 0 tr.

(** What one run of the handler comes to: the reply, the module state it
    leaves, the drain it ran (none on a cache hit), and the clock when it
    replies. *)
Record handled : Type := mkHandled {
  reply : http_response;
  after : server;
  drained : option completion;
  replied_at : Z
}.

(** [GET /api/meetings], entered when the clock reads [now].  The
    [details] member that the error body carries outside production is
    left out.  [None] while the drain is still waiting for the
    upstream. *)
Definition meetings_handler (apiKey : option string) (now : Z)
    (script : list exchange) (s : server) : option handled :=
  match cache_get s now with
  | Some records =>
      Some (mkHandled (mkResponse 200 (VObj [("items", VArr records)])) s None now)
  | None =>
      let c := fst (fetchAllMeetings apiKey script) in
      let done := now + elapsed (trace (final_state c)) in
      match returned c with
      | None => None
      | Some (Ok meetings) =>
          let serializedMeetings := serializeAll meetings in
          Some (mkHandled
                  (mkResponse 200 (VObj [("items", VArr serializedMeetings)]))
                  (cache_set serializedMeetings now)
                  (Some c) done)
      | Some (Throw e) =>
          Some (mkHandled
                  (mkResponse (error_code e)
                     (VObj [("error", VStr "Failed to fetch meetings");
                            ("message", VStr (message e))]))
                  s (Some c) done)
      end
  end.

(* ===================================================================== *)
(** ** [GET /api/meetings/:id/transcript] *)
(* ===================================================================== *)

(** The extraction chain of the handler. *)
Definition extract_transcript (response : value) : result value :=
  if nullish response then Throw (null_member_error response "transcript")
  else if truthy (member response "transcript")
  then Ok (member response "transcript")
  else if truthy (member response "data")
          && truthy (member (member response "data") "transcript")
  then Ok (member (member response "data") "transcript")
  else if truthy (member response "result")
          && truthy (member (member response "result") "transcript")
  then Ok (member (member response "result") "transcript")
  else if String.eqb (typeof response) "string" then Ok response
  else Ok response.

Definition not_found (meetingId : string) : http_response :=
  mkResponse 404
    (VObj [("error", VStr "Transcript not found"); ("recording_id", VStr meetingId)]).

Definition is_404 (e : error) : bool :=
  match status e with Some s => s =? 404 | None => false end
  || match statusCode e with Some s => s =? 404 | None => false end.

(** The handler, for the path parameter [meetingId] and what the upstream
    answers when asked; the second component lists the recording ids
    requested from the upstream. *)
Definition transcript_handler (apiKey : option string) (meetingId : string)
    (o : fetch_outcome) : http_response * list number :=
  let recordingId := parseInt meetingId in
  if isNaN recordingId then
    (mkResponse 400
       (VObj [("error", VStr "Invalid meeting ID");
              ("recording_id", VStr meetingId)]), [])
  else
      let asked := if key_set apiKey then [recordingId] else [] in
      match (r <- fathomRequest apiKey o ;; extract_transcript r) with
      | Ok transcript =>
          if negb (truthy transcript) then (not_found meetingId, asked)
          else (mkResponse 200 (VObj [("transcript", transcript)]), asked)
      | Throw e =>
          if is_404 e then (not_found meetingId, asked)
          else (mkResponse 500
                  (VObj [("error", VStr "Failed to fetch transcript");
                         ("message", VStr (message e))]), asked)
      end.

(* ===================================================================== *)
(** ** The SDK-based server of [src/api/index.js] *)
(* ===================================================================== *)

(** The variant that goes through the [fathom-typescript] client instead
    of [fathomRequest].  [serializeMeeting], the cache variables, the
    [catch] block of the drain and the id test of the transcript handler
    are the same text as above and are shared. *)
Module Sdk.

(** What an awaited SDK call comes to: the value it resolves to, with
    whether that value has a [next] method
    ([typeof response.next === 'function']), or the error it rejects
    with. *)
Inductive sdk_outcome : Type :=
| Resolves (response : value) (pager : bool)
| Rejects (e : error).

Record sdk_call : Type := mkCall {
  took : Z;
  answer : sdk_outcome
}.

(** The calls on the SDK and the waits. *)
Inductive event : Type :=
  (** [fathom.listMeetings(params)], with [params.cursor] if set *)
| ListMeetings (cursor : option value) (took : Z)
  (** [response.next()] *)
| Next (took : Z)
  (** [setTimeout] *)
| Wait (ms : Z).

(** The variables of the loop: [response] is the page the next turn
    reads. *)
Record loop_state : Type := mkLoop {
  allMeetings : list value;
  retryCount : Z;
  response : value;
  pager : bool;
  cursorParam : option value;
  trace : list event
}.

(** The item extraction of this variant, for the truthy [response] the
    loop test lets in. *)
Definition extract_items (response : value) : value :=
  if isArray response then response
  else if truthy (member response "items") then member response "items"
  else if truthy (member response "result")
          && truthy (member (member response "result") "items")
  then member (member response "result") "items"
  else if truthy (member response "data")
          && truthy (member (member response "data") "items")
  then member (member response "data") "items"
  else VArr [].

(** The [try] block up to the call that fetches the next page. *)
Inductive before_call : Type :=
  (** the push threw *)
| Thrown (e : error)
  (** neither [next] nor [nextCursor]: [hasNext] stays false, [break] *)
| NoNext (st : loop_state)
  (** waited 500 ms, about to await [response.next()] or
      [fathom.listMeetings(params)] *)
| Calls (st : loop_state) (via_next : bool).

Definition try_until_call (st : loop_state) : before_call :=
  match push_items (extract_items (response st)) (allMeetings st) with
  | Throw e => Thrown e
  | Ok all =>
      if pager st
      then Calls (mkLoop all (retryCount st) (response st) (pager st)
                    (cursorParam st) (trace st ++ [Wait 500])%list) true
      else if truthy (member (response st) "nextCursor")
      then Calls (mkLoop all (retryCount st) (response st) (pager st)
                    (Some (member (response st) "nextCursor"))
                    (trace st ++ [Wait 500])%list) false
      else NoNext (mkLoop all (retryCount st) (response st) (pager st)
                     (cursorParam st) (trace st))
  end.

Inductive completion : Type :=
| Finished (st : loop_state)
| GaveUp (st : loop_state)
| Threw (e : error) (st : loop_state)
| Pending (st : loop_state).

(** The [while (response)] loop, entered with a truthy [response].  A
    rejected call leaves [response] as it was, so the turn that follows
    [continue] reads the same page again.  (An error of the push is
    rethrown by the [catch] block: see [push_error_is_rethrown].) *)
Fixpoint loop (script : list sdk_call) (st : loop_state)
    : completion * list sdk_call :=
  match try_until_call st with
  | Thrown e => (Threw e st, script)
  | NoNext st1 => (Finished st1, script)
  | Calls st1 via_next =>
      match script with
      | [] => (Pending st1, [])
      | x :: rest =>
          let st2 :=
            mkLoop (allMeetings st1) (retryCount st1) (response st1) (pager st1)
              (cursorParam st1)
              (trace st1 ++ [if via_next then Next (took x)
                             else ListMeetings (cursorParam st1) (took x)])%list in
          match answer x with
          | Resolves r p =>
              let st3 :=
                mkLoop (allMeetings st2) (retryCount st2) r p (cursorParam st2)
                  (trace st2) in
              if nullish r then (Finished st3, rest)
              else
                let st4 :=
                  mkLoop (allMeetings st2) 0 r p (cursorParam st2) (trace st2) in
                if truthy r then loop rest st4 else (Finished st4, rest)
          | Rejects e =>
              match catch_block e (retryCount st2) with
              | Retry n waitTime =>
                  loop rest
                    (mkLoop (allMeetings st2) n (response st2) (pager st2)
                       (cursorParam st2) (trace st2 ++ [Wait waitTime])%list)
              | GiveUpNow n =>
                  (GaveUp (mkLoop (allMeetings st2) n (response st2) (pager st2)
                             (cursorParam st2) (trace st2)), rest)
              | Rethrow => (Threw e st2, rest)
              end
          end
      end
  end.

(** [fetchAllMeetings()]: the first [fathom.listMeetings(params)] is
    awaited before the loop and outside its [try]. *)
Definition fetchAllMeetings (script : list sdk_call) : completion * list sdk_call :=
  match script with
  | [] => (Pending (mkLoop [] 0 VUndef false None []), [])
  | x :: rest =>
      match answer x with
      | Rejects e =>
          (Threw e (mkLoop [] 0 VUndef false None [ListMeetings None (took x)]), rest)
      | Resolves r p =>
          let st := mkLoop [] 0 r p None [ListMeetings None (took x)] in
          if truthy r then loop rest st else (Finished st, rest)
      end
  end.

Definition returned (c : completion) : option (result (list value)) :=
  match c with
  | Finished st | GaveUp st => Some (Ok (allMeetings st))
  | Threw e _ => Some (Throw e)
  | Pending _ => None
  end.

(** The extraction of the transcript handler of this variant. *)
Definition extract_transcript (transcript : value) : value :=
  if truthy transcript && String.eqb (typeof transcript) "object" then
    if truthy (member transcript "transcript") then member transcript "transcript"
    else if truthy (member transcript "data")
            && truthy (member (member transcript "data") "transcript")
    then member (member transcript "data") "transcript"
    else if truthy (member transcript "result")
            && truthy (member (member transcript "result") "transcript")
    then member (member transcript "result") "transcript"
    else transcript
  else transcript.

(** [GET /api/meetings/:id/transcript], for what the SDK call comes to;
    the second component lists the recording ids passed to the SDK. *)
Definition transcript_handler (meetingId : string) (o : sdk_outcome)
    : http_response * list number :=
  let recordingId := parseInt meetingId in
  if isNaN recordingId then
    (mkResponse 400
       (VObj [("error", VStr "Invalid meeting ID");
              ("recording_id", VStr meetingId)]), [])
  else
      match o with
      | Resolves r _ =>
          let transcript := extract_transcript r in
          if negb (truthy transcript) then (not_found meetingId, [recordingId])
          else (mkResponse 200 (VObj [("transcript", transcript)]), [recordingId])
      | Rejects e =>
          if is_404 e then (not_found meetingId, [recordingId])
          else (mkResponse 500
                  (VObj [("error", VStr "Failed to fetch transcript");
                         ("message", VStr (message e))]), [recordingId])
      end.

(** [GET /api/meetings] of this variant: the cache test and the cache
    write are those of the other server; a failed drain is answered
    500. *)
Definition meetings_handler (now : Z) (script : list sdk_call) (s : server)
    : option (http_response * server) :=
  match cache_get s now with
  | Some records => Some (mkResponse 200 (VObj [("items", VArr records)]), s)
  | None =>
      match returned (fst (fetchAllMeetings script)) with
      | None => None
      | Some (Ok meetings) =>
          Some (mkResponse 200 (VObj [("items", VArr (serializeAll meetings))]),
                cache_set (serializeAll meetings) now)
      | Some (Throw e) =>
          Some (mkResponse 500
                  (VObj [("error", VStr "Failed to fetch meetings");
                         ("message", VStr (message e))]), s)
      end
  end.

End Sdk.

(* ===================================================================== *)
(** ** Vocabulary of the properties and sample inputs *)
(* ===================================================================== *)

Local Open Scope list_scope.

(** The items one page adds to [allMeetings]. *)
Definition items_of (response : value) : result (list value) :=
  items <- extract_items response ;; push_items items [].

(** No cursor in any of the three places the loop looks at. *)
Definition cursor_absent (response : value) : Prop :=
  nullish (member response "next_cursor") = true
  /\ nullish (member response "cursor") = true
  /\ nullish (member_opt (member response "pagination") "next_cursor") = true.

(** The loop goes on after this page: it finds a cursor, which
    [queryParams.set] can turn into a string. *)
Definition has_cursor (response : value) : Prop :=
  nullish (extract_cursor response) = false
  /\ unprintable (extract_cursor response) = false.


(** The cursor parameter of the request that follows these pages. *)
Definition cursor_after (pages : list value) : option value :=
  fold_left (fun _ p => Some (extract_cursor p)) pages None.

Definition demo_page_1 : value :=
  VObj [("items", VArr [VNum 1; VNum 2]); ("next_cursor", VStr "c1")].
Definition demo_page_2 : value :=
  VObj [("data", VObj [("items", VArr [VNum 3])]); ("next_cursor", VNull)].
Definition served (page : value) : exchange := mkExchange 120 (HttpOk page).

(** The request fails with HTTP status 429. *)
Definition rate_limited (x : exchange) : Prop :=
  exists statusText body, outcome x = HttpNotOk 429 statusText body.

Definition too_many : exchange :=
  mkExchange 40 (HttpNotOk 429 "Too Many Requests" "slow down").



Definition broken : exchange :=
  mkExchange 40 (HttpNotOk 500 "Internal Server Error" "boom").

(** The items one request adds to [allMeetings]: those of the page when
    the request and the reading of the page both go through. *)
Definition contribution (x : exchange) : list value :=
  match (r <- fathomResponse (outcome x) ;; items_of r) with
  | Ok l => l
  | Throw _ => []
  end.

Definition turn_state (t : turn) : loop_state :=
  match t with
  | Again st | Done st | Break st | Raise _ st => st
  end.

(** The calls that touch the cache. *)
Inductive call : Type :=
  (** [GET /api/meetings] entered at [now], the upstream answering by
      [script] *)
| GetMeetings (now : Z) (script : list exchange)
  (** [POST /api/cache/clear] *)
| ClearCache.

Definition serve (apiKey : option string) (s : server) (c : call) : server :=
  match c with
  | GetMeetings now script =>
      match meetings_handler apiKey now script s with
      | Some h => after h
      | None => s
      end
  | ClearCache => cache_clear
  end.

(** The module state after a sequence of calls on a cold process. *)
Definition run (apiKey : option string) (calls : list call) : server :=
  fold_left (serve apiKey) calls cold.

(** Where the records of a slot come from: a drain of one of the calls,
    which returned a list, either at the end of the cursor chain or after
    the rate-limit retries ran out. *)
Definition from_returned_drain (apiKey : option string) (calls : list call)
    (s : server) : Prop :=
  match meetingsCache s with
  | None => cacheTimestamp s = None
  | Some records =>
      exists now script st asked unread,
        In (GetMeetings now script) calls
        /\ cacheTimestamp s = Some now
        /\ script = asked ++ unread
        /\ (fetchAllMeetings apiKey script = (Finished st, unread)
            \/ fetchAllMeetings apiKey script = (GaveUp st, unread))
        /\ records = serializeAll (flat_map contribution asked)
  end.

(** An upstream that serves a first page, then answers 429 six times
    before it would serve the second and last page. *)
Definition throttled_script : list exchange :=
  [served demo_page_1;
   too_many; too_many; too_many; too_many; too_many; too_many;
   served demo_page_2].

(** The extraction read as a table of strategies tried in order, the
    first that applies being the answer. *)
Definition shape : Type := value -> option value.

Definition bare_list : shape :=
  fun r => if isArray r then Some r else None.
Definition items_key : shape :=
  fun r => if truthy (member_opt r "items") then Some (member_opt r "items") else None.
Definition data_list : shape :=
  fun r => if isArray (member_opt r "data") then Some (member_opt r "data") else None.
Definition data_items : shape :=
  fun r => if truthy (member_opt (member_opt r "data") "items")
           then Some (member_opt (member_opt r "data") "items") else None.

Definition result_items : shape :=
  fun r => if truthy (member_opt (member_opt r "result") "items")
           then Some (member_opt (member_opt r "result") "items") else None.

Definition item_shapes : list shape := [bare_list; items_key; data_list; data_items].

(** The table of the SDK-based server. *)
Definition sdk_item_shapes : list shape :=
  [bare_list; items_key; result_items; data_items].

Fixpoint first_match (shapes : list shape) (r : value) : option value :=
  match shapes with
  | [] => None
  | f :: rest =>
      match f r with
      | Some v => Some v
      | None => first_match rest r
      end
  end.

(** The three places a cursor may sit in, in the order they are read. *)
Definition cursor_places (r : value) : list value :=
  [member_opt r "next_cursor"; member_opt r "cursor";
   member_opt (member_opt r "pagination") "next_cursor"].

(** The page lists [l]: it is not [null], and the first shape it matches
    holds the array [l]; a page that matches no shape lists nothing. *)
Definition page_lists (p : value) (l : list value) : Prop :=
  nullish p = false
  /\ match first_match item_shapes p with
     | Some items => items = VArr l
     | None => l = []
     end.

(** The page leads on: one of the three places holds a truthy value, and
    the first that does can be written into the query. *)
Definition leads_on (p : value) : Prop :=
  exists c, find truthy (cursor_places p) = Some c /\ unprintable c = false.

(** The page ends the chain: none of the three places holds a truthy
    value. *)
Definition ends_chain (p : value) : Prop :=
  find truthy (cursor_places p) = None.

(** A page with an empty-string [next_cursor] and a [cursor]. *)
Definition two_cursors : value :=
  VObj [("items", VArr [VNum 1]); ("next_cursor", VStr ""); ("cursor", VStr "abc")].

(** A page whose items are the list under [data]. *)
Definition data_page : value := VObj [("data", VArr [VNum 1; VNum 2])].

Definition shapeless_page : value :=
  VObj [("meetings", VArr [VNum 1]); ("cursor", VStr "c2")].

(** Whether the string opens with a digit. *)
Definition opens_with (dv : ascii -> option N) (s : string) : bool :=
  match s with
  | String c _ => match dv c with Some _ => true | None => false end
  | EmptyString => false
  end.

(** What [parseInt] can read a number from: behind white space and one
    sign, a hexadecimal digit after [0x] or [0X], or else a decimal
    digit. *)
Definition numeric_start (s : string) : bool :=
  let unsigned := snd (signed (trim_start s)) in
  match prefixed "x" "X" unsigned with
  | Some r => opens_with hex_val r
  | None => opens_with digit_val unsigned
  end.





Definition hello : fetch_outcome := HttpOk (VObj [("transcript", VStr "hello")]).

Definition aliased_only : value := VObj [("meeting_title", VStr "X")].

(** A record that is not plain (its [to_dict] is truthy) and that
    [JSON.stringify] refuses (it holds a BigInt). *)
Definition unserializable : value :=
  VObj [("to_dict", VBool true); ("meeting_title", VStr "X"); ("size", VBigInt 7)].

Definition page : Type := (value * bool)%type.

Definition sdk_items_of (p : page) : result (list value) :=
  push_items (Sdk.extract_items (fst p)) [].

(** The page lists [l], by the table of the SDK-based server. *)
Definition sdk_page_lists (p : page) (l : list value) : Prop :=
  match first_match sdk_item_shapes (fst p) with
  | Some items => items = VArr l
  | None => l = []
  end.

(** The page leads to a further call: it has a [next] method or a truthy
    [nextCursor]. *)
Definition sdk_advances (p : page) : Prop :=
  snd p = true \/ truthy (member (fst p) "nextCursor") = true.

(** The page has neither. *)
Definition sdk_ends (p : page) : Prop :=
  snd p = false /\ truthy (member (fst p) "nextCursor") = false.

Definition sdk_serves (p : page) (x : Sdk.sdk_call) : Prop :=
  Sdk.answer x = Sdk.Resolves (fst p) (snd p).

(** How the pagination closes after the last page: the page itself ends
    it, or the call it leads to resolves to [null] or [undefined]. *)
Definition sdk_closes (last : page) (closing : list Sdk.sdk_call) : Prop :=
  (sdk_ends last /\ closing = [])
  \/ (sdk_advances last
      /\ exists x r p, closing = [x] /\ Sdk.answer x = Sdk.Resolves r p
                       /\ nullish r = true).

Definition sdk_page_1 : page :=
  (VObj [("result", VObj [("items", VArr [VNum 1; VNum 2])])], true).
Definition sdk_page_2 : page := (VObj [("items", VArr [VNum 3])], true).
Definition sdk_served (p : page) : Sdk.sdk_call :=
  Sdk.mkCall 120 (Sdk.Resolves (fst p) (snd p)).
Definition sdk_no_more : Sdk.sdk_call := Sdk.mkCall 120 (Sdk.Resolves VNull false).
Definition sdk_too_many : Sdk.sdk_call :=
  Sdk.mkCall 40 (Sdk.Rejects (mkError None (Some 429) "API error occurred: Status 429")).

(** The value holds a BigInt somewhere; no value decoded from JSON
    does. *)
Fixpoint has_bigint (v : value) : bool :=
  match v with
  | VBigInt _ => true
  | VArr l => existsb has_bigint l
  | VObj ms => existsb (fun kv => has_bigint (snd kv)) ms
  | _ => false
  end.

(** Induction on values that goes through the elements of arrays and the
    members of objects. *)
Section ValueInduction.
Variable P : value -> Prop.
Hypothesis Hundef : P VUndef.
Hypothesis Hnull : P VNull.
Hypothesis Hbool : forall b, P (VBool b).
Hypothesis Hnum : forall n, P (VNum n).
Hypothesis Hbig : forall n, P (VBigInt n).
Hypothesis Hstr : forall s, P (VStr s).
Hypothesis Harr : forall l, Forall P l -> P (VArr l).
Hypothesis Hobj : forall ms, Forall (fun kv => P (snd kv)) ms -> P (VObj ms).

Fixpoint value_nested_ind (v : value) : P v :=
  match v with
  | VUndef => Hundef
  | VNull => Hnull
  | VBool b => Hbool b
  | VNum n => Hnum n
  | VBigInt n => Hbig n
  | VStr s => Hstr s
  | VArr l =>
      Harr l ((fix all (l : list value) : Forall P l :=
                 match l with
                 | [] => Forall_nil P
                 | x :: rest => Forall_cons x (value_nested_ind x) (all rest)
                 end) l)
  | VObj ms =>
      Hobj ms ((fix all (ms : list (string * value))
                  : Forall (fun kv => P (snd kv)) ms :=
                  match ms with
                  | [] => Forall_nil _
                  | (k, x) :: rest =>
                      Forall_cons (P := fun kv => P (snd kv)) (k, x)
                        (value_nested_ind x) (all rest)
                  end) ms)
  end.

End ValueInduction.

(* ===================================================================== *)
(** ** The filters, the health report and the connection test *)
(* ===================================================================== *)

(** Parts of [src/unnamed/part_000] beside the drain and the two main
    routes: the filter parameters that [fetchAllMeetings] builds before
    its loop, [GET /api/health] and [GET /api/test-connection]. *)

(** [s.split(',')]. *)
Fixpoint split_commas (l : list ascii) : list (list ascii) :=
  match l with
  | [] => [[]]
  | c :: rest =>
      if Ascii.eqb c "," then [] :: split_commas rest
      else match split_commas rest with
           | piece :: pieces => (c :: piece) :: pieces
           | [] => [[c]]
           end
  end.

(** [process.env.X.split(',').map(d => d.trim())] when the variable is
    set and not empty; no value otherwise. *)
Definition env_values (v : option string) : list string :=
  match v with
  | Some s =>
      if String.eqb s "" then []
      else map (fun piece => trim (string_of_list_ascii piece))
             (split_commas (list_ascii_of_string s))
  | None => []
  end.

(** The entries appended to [queryParams] before the loop, in order, as
    name and value before URL encoding. *)
Definition filter_params (domains recordedBy teams : option string)
    : list (string * string) :=
  map (fun d => ("calendar_invitees_domains", d)) (env_values domains)
  ++ map (fun e => ("recorded_by", e)) (env_values recordedBy)
  ++ map (fun t => ("teams", t)) (env_values teams).

Fixpoint commas (l : list ascii) : nat :=
  match l with
  | [] => 0
  | c :: rest => if Ascii.eqb c "," then S (commas rest) else commas rest
  end.

(** The number of values a variable gives: one more than its commas. *)
Definition pieces (v : option string) : nat :=
  match v with
  | Some s =>
      if String.eqb s "" then 0%nat else S (commas (list_ascii_of_string s))
  | None => 0%nat
  end.

(** A cut of bytes that decoding gives back: each piece is a whole
    sequence, or an opening byte with too few bytes behind it. *)
Definition piece_fits (cp : string) (behind : nat) : Prop :=
  match cp with
  | EmptyString => False
  | String a r =>
      String.length cp = utf8_width a
      \/ (r = EmptyString /\ (S behind < utf8_width a)%nat)
  end.

Fixpoint well_cut (l : list string) : Prop :=
  match l with
  | [] => True
  | cp :: rest => piece_fits cp (String.length (String.concat "" rest)) /\ well_cut rest
  end.

(** No white space at either end. *)
Definition trimmed (s : string) : Prop :=
  match code_points s with
  | [] => True
  | cp :: _ => is_white_space cp = false
  end
  /\ match rev (code_points s) with
     | [] => True
     | cp :: _ => is_white_space cp = false
     end.

Definition values_of (name : string) (params : list (string * string)) : list string :=
  map snd (filter (fun kv => String.eqb (fst kv) name) params).

(** What the awaited [fetch] and [response.text()] of
    [GET /api/test-connection] come to. *)
Inductive probe_outcome : Type :=
  (** a response, whatever its status, with its body text and headers *)
| ProbeResolves (httpStatus : Z) (httpStatusText text : string)
    (headers : list (string * string))
  (** a rejection, with the error's [message], [code], [cause?.message]
      and [stack] *)
| ProbeRejects (message code cause stack : value).

(** [process.env.FATHOM_API_BASE || 'https://api.fathom.video/v1']. *)
Definition FATHOM_API_BASE (env : option string) : string :=
  match env with
  | Some b => if String.eqb b "" then "https://api.fathom.video/v1" else b
  | None => "https://api.fathom.video/v1"
  end.

(** [process.env.VERCEL_ENV !== 'production']. *)
Definition not_production (vercelEnv : option string) : bool :=
  match vercelEnv with
  | Some e => negb (String.eqb e "production")
  | None => true
  end.

(** The high surrogate of a code point beyond U+FFFF, in the three
    bytes the encoding scheme gives its code. *)
Definition high_surrogate (cp : string) : string :=
  match cp with
  | String a (String b (String c (String d _))) =>
      let n := ((N_of_ascii a mod 8) * 262144 + (N_of_ascii b mod 64) * 4096
                + (N_of_ascii c mod 64) * 64 + N_of_ascii d mod 64)%N in
      utf8 (55296 + (n - 65536) / 1024)%N
  | _ => cp
  end.

(** The first [n] UTF-16 code units of a string given by its code
    points; a code point of two units that straddles the end leaves its
    high surrogate. *)
Fixpoint take_units (n : nat) (l : list string) : list string :=
  match n, l with
  | O, _ => []
  | _, [] => []
  | S m, cp :: rest =>
      if (utf16_units cp =? 2)%nat then
        match m with
        | O => [high_surrogate cp]
        | S m' => cp :: take_units m' rest
        end
      else cp :: take_units m rest
  end.

(** [text.substring(0, 200)]. *)
Definition preview (text : string) : string :=
  String.concat "" (take_units 200 (code_points text)).

(** [GET /api/test-connection].  The outer [catch] ('Test failed') is
    reached only by an exception of the code around the call, which
    neither outcome raises; it is left out. *)
Definition test_connection (apiKey baseEnv vercelEnv : option string)
    (o : probe_outcome) : http_response :=
  if negb (key_set apiKey) then
    mkResponse 500
      (VObj [("error", VStr "FATHOM_API_KEY is not set");
             ("message",
              VStr "Please set FATHOM_API_KEY in your environment variables")])
  else
    match o with
    | ProbeResolves httpStatus httpStatusText text headers =>
        mkResponse 200
          (VObj [("status", VStr "connection_test");
                 ("apiBaseUrl", VStr (FATHOM_API_BASE baseEnv));
                 ("testUrl", VStr (FATHOM_API_BASE baseEnv ++ "/recordings?limit=1")%string);
                 ("httpStatus", VNum httpStatus);
                 ("httpStatusText", VStr httpStatusText);
                 ("responsePreview", VStr (preview text));
                 ("headers", VObj (map (fun kv => (fst kv, VStr (snd kv))) headers))])
    | ProbeRejects message code cause stack =>
        mkResponse 500
          (VObj [("error", VStr "Fetch failed");
                 ("message", message);
                 ("code", code);
                 ("cause", cause);
                 ("stack", if not_production vercelEnv then stack else VUndef)])
    end.

(** The [cache] member of the body of [GET /api/health], asked when the
    clock reads [now]. *)
Definition health_cache (s : server) (now : Z) : value :=
  VObj
    [ ("hasCache",
       VBool (match meetingsCache s with Some _ => true | None => false end));
      ("cacheSize",
       VNum (match meetingsCache s with
             | Some records => Z.of_nat (List.length records)
             | None => 0
             end));
      ("cacheAge",
       match cacheTimestamp s with
       | Some t => if t =? 0 then VNull else VNum ((now - t) / 1000)
       | None => VNull
       end) ].

(* ===================================================================== *)
(** ** Further vocabulary *)
(* ===================================================================== *)

(** One round of the drain: the requests for a page that are answered
    429, then the request that brings the page. *)
Record round : Type := mkRound {
  refused : list exchange;
  granted : exchange;
  granted_page : value;
  granted_items : list value
}.

Definition play (r : round) : list exchange := refused r ++ [granted r].

(** At most five refusals, all with status 429, then a page that lists
    its items. *)
Definition fair_round (r : round) : Prop :=
  Forall rate_limited (refused r)
  /\ (List.length (refused r) <= 5)%nat
  /\ outcome (granted r) = HttpOk (granted_page r)
  /\ page_lists (granted_page r) (granted_items r).

(** The waits the loop can make: the pause between pages and the five
    steps of the backoff. *)
Definition allowed_wait (ev : event) : Prop :=
  match ev with
  | Request _ _ => True
  | Wait ms => In ms [500; 2000; 4000; 8000; 16000; 32000]
  end.

(** The request brought a page that was read without an exception. *)
Definition succeeded (x : exchange) : bool :=
  match (r <- fathomResponse (outcome x) ;; items_of r) with
  | Ok _ => true
  | Throw _ => false
  end.

Fixpoint count_requests (tr : list event) : nat :=
  match tr with
  | [] => 0
  | Request _ _ :: rest => S (count_requests rest)
  | Wait _ :: rest => count_requests rest
  end.

(** A truthy plain object: what [serializeMeeting] hands back as it
    is. *)
Definition plain_record (m : value) : Prop :=
  truthy m = true /\ is_plain m = true.

Definition failed_body (e : error) : value :=
  VObj [("error", VStr "Failed to fetch meetings"); ("message", VStr (message e))].

Definition a_record (n : Z) : value := VObj [("recording_id", VNum n)].
Definition record_page_1 : value :=
  VObj [("items", VArr [a_record 1; a_record 2]); ("next_cursor", VStr "c1")].
Definition record_page_2 : value := VObj [("items", VArr [a_record 3])].
Definition unauthorized : exchange :=
  mkExchange 40 (HttpNotOk 401 "Unauthorized" "bad key").

(** The two inner loops of [json_copy], named. *)
Fixpoint copy_elems (l : list value) : result (list value) :=
  match l with
  | [] => Ok []
  | x :: rest =>
      x' <- json_copy x ;;
      rest' <- copy_elems rest ;;
      Ok (match x' with Some y => y | None => VNull end :: rest')
  end.

Fixpoint copy_members (ms : list (string * value)) : result (list (string * value)) :=
  match ms with
  | [] => Ok []
  | (k, x) :: rest =>
      x' <- json_copy x ;;
      rest' <- copy_members rest ;;
      Ok (match x' with Some y => (k, y) :: rest' | None => rest' end)
  end.

(** The call is rejected with an error that the [catch] block takes for
    a rate limit. *)
Definition sdk_refused (x : Sdk.sdk_call) : Prop :=
  exists e, Sdk.answer x = Sdk.Rejects e /\ is_rate_limit e = true.

Fixpoint copies (n : nat) (l : list value) : list value :=
  match n with
  | O => []
  | S n' => l ++ copies n' l
  end.

(* ===================================================================== *)
(** ** Properties of the drain *)
(* ===================================================================== *)

Lemma missing_key_not_rate_limit : is_rate_limit missing_key_error = false.
Proof. reflexivity. Qed.

Lemma nullish_not_truthy (v : value) : nullish v = true -> truthy v = false.
Proof. destruct v; simpl; congruence. Qed.

Lemma cursor_absent_extract (response : value) :
  cursor_absent response -> extract_cursor response = VNull.
Proof.
  intros (H1 & H2 & H3). unfold extract_cursor, or_else.
  rewrite (nullish_not_truthy _ H1), (nullish_not_truthy _ H2),
    (nullish_not_truthy _ H3).
  reflexivity.
Qed.

Lemma push_items_acc (items : value) (acc : list value) :
  push_items items acc = (l <- push_items items [] ;; Ok (acc ++ l)%list).
Proof.
  unfold push_items.
  destruct (truthy items); cbn [bind]; [|now rewrite app_nil_r].
  destruct (unprintable (member items "length")); [reflexivity|].
  destruct (gt_zero (member items "length")); cbn [bind].
  - destruct (spread items); reflexivity.
  - now rewrite app_nil_r.
Qed.

Lemma cannot_convert_is_rethrown (st : loop_state) :
  on_error cannot_convert_error st = Raise cannot_convert_error st.
Proof. reflexivity. Qed.

(** A page that is read without an exception, in a turn of the loop. *)
Lemma loop_turn_page (x : exchange) (st : loop_state) (page : value) (l : list value) :
  outcome x = HttpOk page ->
  items_of page = Ok l ->
  loop_turn x st =
    if negb (nullish (extract_cursor page))
    then if unprintable (extract_cursor page)
         then Raise cannot_convert_error
                (mkLoop (allMeetings st ++ l) (retryCount st) (cursorParam st)
                   (trace st ++ [Request (cursorParam st) (latency x)]))
         else Again (mkLoop (allMeetings st ++ l) 0 (Some (extract_cursor page))
                       (trace st ++ [Request (cursorParam st) (latency x); Wait 500]))
    else Done (mkLoop (allMeetings st ++ l) 0 (cursorParam st)
                 (trace st ++ [Request (cursorParam st) (latency x)])).
Proof.
  intros Hx Hl. unfold loop_turn, items_of in *. rewrite Hx.
  cbn [fathomResponse]. unfold on_response.
  destruct (extract_items page) as [items|e]; cbn [bind] in *; [|discriminate].
  cbn [log allMeetings retryCount cursorParam trace].
  rewrite push_items_acc, Hl. cbn [bind].
  destruct (nullish (extract_cursor page)); cbn [negb]; [reflexivity|].
  destruct (unprintable (extract_cursor page)).
  - now rewrite cannot_convert_is_rethrown.
  - now rewrite <- app_assoc.
Qed.

(** A run of pages that all carry a cursor leaves the loop asking for the
    next one. *)
Lemma drain_loop_pages (pages : list value) :
  forall (lists : list (list value)) (script : list exchange) (st : loop_state),
    map outcome script = map HttpOk pages ->
    Forall2 (fun p l => items_of p = Ok l) pages lists ->
    Forall has_cursor pages ->
    retryCount st = 0 ->
    exists st',
      (forall tail, drain_loop (script ++ tail) st = drain_loop tail st')
      /\ allMeetings st' = allMeetings st ++ List.concat lists
      /\ retryCount st' = 0
      /\ cursorParam st' =
           fold_left (fun _ p => Some (extract_cursor p)) pages (cursorParam st)
      /\ exists tr, trace st' = trace st ++ tr.
Proof.
  induction pages as [|p pages IH]; intros lists script st Hs Hl Hc Hr.
  - destruct script; [|discriminate]. inversion Hl; subst.
    exists st. simpl. rewrite app_nil_r. repeat split; auto.
    exists []. now rewrite app_nil_r.
  - destruct script as [|x script]; [discriminate|].
    simpl in Hs. injection Hs as Hx Hs.
    inversion Hl as [|? l ? lists' Hp Hl']; subst.
    inversion Hc as [|? ? Hcp Hc']; subst.
    set (st1 := mkLoop (allMeetings st ++ l) 0 (Some (extract_cursor p))
                  (trace st ++ [Request (cursorParam st) (latency x); Wait 500])).
    destruct (IH lists' script st1 Hs Hl' Hc' eq_refl)
      as (st' & Hrun & Hall & Hrc & Hcur & tr & Htr).
    exists st'. repeat split; auto.
    + intros tail. simpl. rewrite (loop_turn_page x st p l Hx Hp).
      destruct Hcp as [Hcp Hpr]. rewrite Hcp, Hpr. simpl. apply Hrun.
    + rewrite Hall. simpl. now rewrite app_assoc.
    + eexists. rewrite Htr. simpl. rewrite <- app_assoc. reflexivity.
Qed.

(** The page that ends the drain. *)
Lemma drain_loop_last_page (x : exchange) (rest : list exchange) (st : loop_state)
    (page : value) (l : list value) :
  outcome x = HttpOk page ->
  items_of page = Ok l ->
  extract_cursor page = VNull ->
  drain_loop (x :: rest) st =
    (Finished (mkLoop (allMeetings st ++ l) 0 (cursorParam st)
                 (trace st ++ [Request (cursorParam st) (latency x)])), rest).
Proof.
  intros Hx Hl Hc. simpl. rewrite (loop_turn_page x st page l Hx Hl), Hc. reflexivity.
Qed.


(** A turn whose request is answered 429: one more retry, or [break]. *)
Lemma loop_turn_rate_limited (x : exchange) (st : loop_state) :
  rate_limited x ->
  loop_turn x st =
    if retryCount st + 1 <=? maxRetries
    then Again (mkLoop (allMeetings st) (retryCount st + 1) (cursorParam st)
                  (trace st ++ [Request (cursorParam st) (latency x);
                                Wait (2 ^ (retryCount st + 1) * 1000)]))
    else Break (mkLoop (allMeetings st) (retryCount st + 1) (cursorParam st)
                  (trace st ++ [Request (cursorParam st) (latency x)])).
Proof.
  intros (statusText & body & Hx). unfold loop_turn. rewrite Hx.
  cbn [fathomResponse bind]. unfold on_error, catch_block, is_rate_limit.
  cbn [status Z.eqb Pos.eqb orb log retryCount allMeetings cursorParam trace].
  destruct (retryCount st + 1 <=? maxRetries); [|reflexivity].
  now rewrite <- app_assoc.
Qed.

(** Six 429 answers in a row to a loop that has just read a page (or has
    just started): five waits, doubling from two seconds, then [break]. *)
Lemma drain_loop_six_rate_limited
    (f1 f2 f3 f4 f5 f6 : exchange) (rest : list exchange) (st : loop_state) :
  Forall rate_limited [f1; f2; f3; f4; f5; f6] ->
  retryCount st = 0 ->
  drain_loop ([f1; f2; f3; f4; f5; f6] ++ rest) st =
    (GaveUp (mkLoop (allMeetings st) 6 (cursorParam st)
               (trace st ++
                  [Request (cursorParam st) (latency f1); Wait 2000;
                   Request (cursorParam st) (latency f2); Wait 4000;
                   Request (cursorParam st) (latency f3); Wait 8000;
                   Request (cursorParam st) (latency f4); Wait 16000;
                   Request (cursorParam st) (latency f5); Wait 32000;
                   Request (cursorParam st) (latency f6)])), rest).
Proof.
  intros Hf Hr.
  repeat match goal with
         | H : Forall _ (_ :: _) |- _ => inversion H; clear H; subst
         end.
  destruct st as [all rc cur tr]. cbn [retryCount] in Hr. subst rc.
  cbn [app drain_loop].
  repeat (rewrite loop_turn_rate_limited by assumption;
          cbn [retryCount allMeetings cursorParam trace Z.add Z.leb Z.compare
               Pos.add Pos.succ Pos.compare Pos.compare_cont maxRetries drain_loop]).
  repeat rewrite <- app_assoc. reflexivity.
Qed.

(** A script that leaves the loop asking for more is a prefix the loop
    runs through whatever follows. *)
Lemma drain_loop_pending (pre : list exchange) :
  forall (st0 st : loop_state) (tail : list exchange),
    drain_loop pre st0 = (Pending st, []) ->
    drain_loop (pre ++ tail) st0 = drain_loop tail st.
Proof.
  induction pre as [|x pre IH]; intros st0 st tail H.
  - simpl in H. injection H as ->. reflexivity.
  - simpl in *. destruct (loop_turn x st0); try discriminate.
    now apply IH.
Qed.





(* ===================================================================== *)
(** ** Properties of the cache *)
(* ===================================================================== *)

Lemma cache_get_set (records : list value) (t now : Z) :
  cache_get (cache_set records t) now =
    if negb (t =? 0) && (now - t <? CACHE_TTL) then Some records else None.
Proof. reflexivity. Qed.

(** Claim C4.  A read that follows [set(records)] while
    [now - fetchedAt] is under the five minutes gives back exactly
    [records] (for a clock that does not read 0, which the test takes
    for "no timestamp"); once the age reaches the five minutes the read
    is a miss although the slot still holds the records. *)
Theorem cache_get_after_set (records : list value) (fetchedAt now : Z) :
  fetchedAt <> 0 ->
  (now - fetchedAt < CACHE_TTL ->
   cache_get (cache_set records fetchedAt) now = Some records)
  /\ (CACHE_TTL <= now - fetchedAt ->
      cache_get (cache_set records fetchedAt) now = None
      /\ meetingsCache (cache_set records fetchedAt) = Some records).
Proof.
  intros Hclock. unfold cache_get, cache_set. cbn [meetingsCache cacheTimestamp].
  apply Z.eqb_neq in Hclock. rewrite Hclock. cbn [negb andb].
  split.
  - intros Hfresh. apply Z.ltb_lt in Hfresh. now rewrite Hfresh.
  - intros Hstale. split; [|reflexivity].
    apply Z.ltb_ge in Hstale. now rewrite Hstale.
Qed.

Lemma cache_get_after_set_witness :
  cache_get (cache_set [VNum 1; VNum 2] 1700000000000) 1700000299999
    = Some [VNum 1; VNum 2]
  /\ cache_get (cache_set [VNum 1; VNum 2] 1700000000000) 1700000300000 = None
  /\ meetingsCache (cache_set [VNum 1; VNum 2] 1700000000000)
     = Some [VNum 1; VNum 2].
Proof.
  destruct (cache_get_after_set [VNum 1; VNum 2] 1700000000000 1700000299999)
    as (Hfresh & _); [discriminate|].
  destruct (cache_get_after_set [VNum 1; VNum 2] 1700000000000 1700000300000)
    as (_ & Hstale); [discriminate|].
  split; [apply Hfresh; reflexivity|].
  apply Hstale. discriminate.
Defined.

(** The handler serves a fresh slot as it is and asks the upstream for
    nothing. *)
Lemma meetings_handler_hit (apiKey : option string) (now : Z)
    (script : list exchange) (s : server) (records : list value) :
  cache_get s now = Some records ->
  meetings_handler apiKey now script s =
    Some (mkHandled (mkResponse 200 (VObj [("items", VArr records)])) s None now).
Proof. intros H. unfold meetings_handler. now rewrite H. Qed.

(** [clear()] makes the next read a miss at any time. *)
Lemma cache_get_after_clear (now : Z) : cache_get cache_clear now = None.
Proof. reflexivity. Qed.

(** What the handler does on a miss, by the way the drain ends. *)
Lemma meetings_handler_miss (apiKey : option string) (now : Z)
    (script : list exchange) (s : server) :
  cache_get s now = None ->
  meetings_handler apiKey now script s =
    let c := fst (fetchAllMeetings apiKey script) in
    match returned c with
    | None => None
    | Some (Ok meetings) =>
        Some (mkHandled
                (mkResponse 200 (VObj [("items", VArr (serializeAll meetings))]))
                (cache_set (serializeAll meetings) now) (Some c)
                (now + elapsed (trace (final_state c))))
    | Some (Throw e) =>
        Some (mkHandled
                (mkResponse (error_code e)
                   (VObj [("error", VStr "Failed to fetch meetings");
                          ("message", VStr (message e))]))
                s (Some c) (now + elapsed (trace (final_state c))))
    end.
Proof. intros H. unfold meetings_handler. now rewrite H. Qed.



(** *** What the slot holds *)

Lemma loop_turn_allMeetings (x : exchange) (st : loop_state) :
  allMeetings (turn_state (loop_turn x st)) = allMeetings st ++ contribution x.
Proof.
  unfold loop_turn, contribution, items_of.
  assert (forall e st1, allMeetings (turn_state (on_error e st1)) = allMeetings st1)
    as Herr.
  { intros e st1. unfold on_error, catch_block.
    destruct (is_rate_limit e); [|reflexivity].
    destruct (retryCount st1 + 1 <=? maxRetries); reflexivity. }
  destruct (fathomResponse (outcome x)) as [r|e]; cbn [bind].
  - unfold on_response.
    destruct (extract_items r) as [items|e]; cbn [bind].
    + rewrite push_items_acc.
      destruct (push_items items []) as [l|e]; cbn [bind].
      * destruct (negb (nullish (extract_cursor r))); [|reflexivity].
        destruct (unprintable (extract_cursor r)); [|reflexivity].
        now rewrite Herr.
      * rewrite Herr. cbn. now rewrite app_nil_r.
    + rewrite Herr. cbn. now rewrite app_nil_r.
  - rewrite Herr. cbn. now rewrite app_nil_r.
Qed.

(** However the drain ends, [allMeetings] is what the requests it made
    brought in, in order. *)
Lemma drain_loop_gathers (script : list exchange) :
  forall (st : loop_state) (c : completion) (unread : list exchange),
    drain_loop script st = (c, unread) ->
    exists asked,
      script = asked ++ unread
      /\ allMeetings (final_state c) = allMeetings st ++ flat_map contribution asked.
Proof.
  induction script as [|x script IH]; intros st c unread H.
  - simpl in H. injection H as <- <-. exists []. simpl.
    now rewrite app_nil_r.
  - simpl in H. pose proof (loop_turn_allMeetings x st) as Hx.
    destruct (loop_turn x st) as [st'|st'|st'|e st']; cbn [turn_state] in Hx.
    + destruct (IH _ _ _ H) as (asked & -> & Hall).
      exists (x :: asked). split; [reflexivity|].
      rewrite Hall, Hx. simpl. now rewrite app_assoc.
    + injection H as <- <-. exists [x]. simpl. now rewrite app_nil_r.
    + injection H as <- <-. exists [x]. simpl. now rewrite app_nil_r.
    + injection H as <- <-. exists [x]. simpl. now rewrite app_nil_r.
Qed.

Lemma from_returned_drain_more (apiKey : option string) (calls : list call)
    (c : call) (s : server) :
  from_returned_drain apiKey calls s ->
  from_returned_drain apiKey (calls ++ [c]) s.
Proof.
  unfold from_returned_drain. destruct (meetingsCache s); [|auto].
  intros (now & script & st & asked & unread & Hin & H).
  exists now, script, st, asked, unread. split; [|exact H].
  apply in_or_app. now left.
Qed.

Lemma serve_from_returned_drain (apiKey : option string) (calls : list call)
    (c : call) (s : server) :
  from_returned_drain apiKey calls s ->
  from_returned_drain apiKey (calls ++ [c]) (serve apiKey s c).
Proof.
  intros Hs. destruct c as [now script|]; [|reflexivity].
  cbn [serve]. destruct (cache_get s now) as [records|] eqn:Hget.
  - rewrite (meetings_handler_hit _ _ _ _ _ Hget). cbn [after].
    now apply from_returned_drain_more.
  - rewrite (meetings_handler_miss _ _ _ _ Hget). cbv zeta.
    destruct (fetchAllMeetings apiKey script) as [cmp unread] eqn:Hdrain.
    cbn [fst].
    assert (exists asked,
               script = asked ++ unread
               /\ allMeetings (final_state cmp) = flat_map contribution asked)
      as (asked & Hscript & Hall).
    { unfold fetchAllMeetings in Hdrain.
      destruct (key_set apiKey).
      - destruct (drain_loop_gathers _ _ _ _ Hdrain) as (asked & ? & ?).
        now exists asked.
      - injection Hdrain as <- <-. now exists []. }
    destruct cmp as [st|st|e st|st]; cbn [returned after].
    + unfold from_returned_drain. cbn [cache_set meetingsCache cacheTimestamp].
      exists now, script, st, asked, unread.
      repeat split; auto.
      * apply in_or_app. right. now left.
      * cbn [final_state] in Hall. now rewrite Hall.
    + unfold from_returned_drain. cbn [cache_set meetingsCache cacheTimestamp].
      exists now, script, st, asked, unread.
      repeat split; auto.
      * apply in_or_app. right. now left.
      * cbn [final_state] in Hall. now rewrite Hall.
    + now apply from_returned_drain_more.
    + now apply from_returned_drain_more.
Qed.

(** Claim C5, as stated, fails: after one [GET /api/meetings] against the
    throttled upstream the slot holds the first page only; the drain gave
    up with the cursor of the first page pending and the second page
    never asked for. *)
Lemma cache_can_hold_partial_drain :
  meetingsCache (run (Some "key") [GetMeetings 1700000000000 throttled_script])
    = Some [VNum 1; VNum 2]
  /\ fetchAllMeetings (Some "key") throttled_script
     = (GaveUp
          (mkLoop [VNum 1; VNum 2] 6 (Some (VStr "c1"))
             [Request None 120; Wait 500;
              Request (Some (VStr "c1")) 40; Wait 2000;
              Request (Some (VStr "c1")) 40; Wait 4000;
              Request (Some (VStr "c1")) 40; Wait 8000;
              Request (Some (VStr "c1")) 40; Wait 16000;
              Request (Some (VStr "c1")) 40; Wait 32000;
              Request (Some (VStr "c1")) 40]),
        [served demo_page_2])
  /\ returned (fst (fetchAllMeetings (Some "key")
                      [served demo_page_1; served demo_page_2]))
     = Some (Ok [VNum 1; VNum 2; VNum 3]).
Proof. repeat split. Qed.

(** Claim C5, amended.  After every sequence of calls on a cold process,
    a non-empty slot holds the normalized records of a drain that one of
    the [GET /api/meetings] calls ran and that returned a list: all the
    items of all the pages that drain read, in order, the drain having
    ended either at a page without cursor or by giving up after the
    rate-limit retries; the timestamp is the entry time of that call.  A
    drain that throws writes nothing. *)
Theorem cache_holds_a_returned_drain (apiKey : option string) (calls : list call) :
  from_returned_drain apiKey calls (run apiKey calls).
Proof.
  induction calls as [|c calls IH] using rev_ind.
  - reflexivity.
  - unfold run in *. rewrite fold_left_app. cbn [fold_left].
    now apply serve_from_returned_drain.
Qed.

(* ===================================================================== *)
(** ** Response shapes *)
(* ===================================================================== *)

Lemma falsy_has_no_items (d : value) :
  truthy d = false -> member_opt d "items" = VUndef.
Proof.
  destruct d; simpl; try reflexivity; try discriminate.
Qed.

Lemma member_opt_defined (v : value) (k : string) :
  nullish v = false -> member_opt v k = member v k.
Proof. intros H. unfold member_opt. now rewrite H. Qed.

Lemma truthy_not_nullish (v : value) : truthy v = true -> nullish v = false.
Proof. destruct v; simpl; congruence. Qed.

Lemma extract_items_first_match (response : value) :
  nullish response = false ->
  extract_items response =
    Ok (match first_match item_shapes response with
        | Some v => v
        | None => VArr []
        end).
Proof.
  intros Hn. unfold extract_items. rewrite Hn.
  cbn [first_match item_shapes]. unfold bare_list, items_key, data_list, data_items.
  rewrite !(member_opt_defined response _ Hn).
  destruct (isArray response); [reflexivity|].
  destruct (truthy (member response "items")); [reflexivity|].
  destruct (truthy (member response "data")) eqn:Hd; cbn [andb].
  - rewrite !(member_opt_defined _ _ (truthy_not_nullish _ Hd)).
    destruct (isArray (member response "data")); [reflexivity|].
    destruct (truthy (member (member response "data") "items")); reflexivity.
  - assert (isArray (member response "data") = false) as ->.
    { destruct (member response "data"); simpl in *; congruence. }
    now rewrite (falsy_has_no_items _ Hd).
Qed.

Lemma extract_cursor_first_truthy (response : value) :
  nullish response = false ->
  extract_cursor response =
    match find truthy (cursor_places response) with
    | Some c => c
    | None => VNull
    end.
Proof.
  intros Hn. unfold extract_cursor, cursor_places, or_else.
  rewrite !(member_opt_defined response _ Hn). cbn [find].
  set (a := member response "next_cursor").
  set (b := member response "cursor").
  set (c := member_opt (member response "pagination") "next_cursor").
  destruct (truthy a) eqn:Ea; cbv iota; rewrite ?Ea; cbv iota; [reflexivity|].
  destruct (truthy b) eqn:Eb; cbv iota; rewrite ?Eb; cbv iota; [reflexivity|].
  destruct (truthy c) eqn:Ec; cbv iota; rewrite ?Ec; reflexivity.
Qed.

Lemma member_opt_member (v : value) (k : string) : member_opt v k = member v k.
Proof. destruct v; reflexivity. Qed.

(** The extraction of the SDK-based server is its own table. *)
Lemma sdk_extract_items_first_match (response : value) :
  Sdk.extract_items response =
    match first_match sdk_item_shapes response with
    | Some v => v
    | None => VArr []
    end.
Proof.
  unfold Sdk.extract_items. cbn [first_match sdk_item_shapes].
  unfold bare_list, items_key, result_items, data_items.
  rewrite !member_opt_member.
  destruct (isArray response); [reflexivity|].
  destruct (truthy (member response "items")); [reflexivity|].
  destruct (truthy (member response "result")) eqn:Hr; cbn [andb].
  - destruct (truthy (member (member response "result") "items")); [reflexivity|].
    destruct (truthy (member response "data")) eqn:Hd; cbn [andb].
    + destruct (truthy (member (member response "data") "items")); reflexivity.
    + rewrite <- (member_opt_member (member response "data")).
      now rewrite (falsy_has_no_items _ Hd).
  - rewrite <- (member_opt_member (member response "result")).
    rewrite (falsy_has_no_items _ Hr). cbn [truthy].
    destruct (truthy (member response "data")) eqn:Hd; cbn [andb].
    + destruct (truthy (member (member response "data") "items")); reflexivity.
    + rewrite <- (member_opt_member (member response "data")).
      now rewrite (falsy_has_no_items _ Hd).
Qed.

(** Claim C6, as stated, fails, in three ways.  In the direct server the
    first cursor value that is present (neither [null] nor [undefined])
    is the empty string of [next_cursor], yet the loop goes on with the
    value of [cursor]; the body [null] matches no shape, yet the drain
    throws.  In the SDK-based server a page whose [data] is the list of
    items adds nothing: the third shape there is [result.items]. *)
Lemma page_shapes_claim_fails :
  find (fun v => negb (nullish v)) (cursor_places two_cursors) = Some (VStr "")
  /\ extract_cursor two_cursors = VStr "abc"
  /\ first_match item_shapes VNull = None
  /\ fetchAllMeetings (Some "key") [served VNull]
     = (Threw (plain_error "Cannot read properties of null (reading 'items')")
          (mkLoop [] 0 None [Request None 120]), [])
  /\ data_list data_page = Some (VArr [VNum 1; VNum 2])
  /\ Sdk.extract_items data_page = VArr [].
Proof. repeat split. Qed.

(** Claim C6, amended.  In the direct server, for every page response
    other than [null], the item extraction is the first applicable of:
    the response is a list; its [items] member is truthy; its [data]
    member is a list; the [items] member of its [data] is truthy.  When
    none applies the page adds no item, the extraction does not throw,
    and the loop goes on or stops by the cursor, which is the first
    truthy value among [next_cursor], [cursor] and
    [pagination.next_cursor] ([null] when there is none); the one way
    the turn can still throw is a cursor that cannot be turned into a
    string for the query.  In the SDK-based server the table is: a list;
    truthy [items]; truthy [result.items]; truthy [data.items]; a page
    that matches none adds no item, and the next page is asked for
    through [response.next()] when that is a function, else with
    [nextCursor] when it is truthy, else the drain is over. *)
Theorem page_shapes_in_priority_order (response : value) :
  nullish response = false ->
  (extract_items response =
     Ok (match first_match item_shapes response with
         | Some v => v
         | None => VArr []
         end)
   /\ extract_cursor response =
        match find truthy (cursor_places response) with
        | Some c => c
        | None => VNull
        end
   /\ (first_match item_shapes response = None ->
       forall (x : exchange) (st : loop_state),
         outcome x = HttpOk response ->
         loop_turn x st =
           if negb (nullish (extract_cursor response))
           then if unprintable (extract_cursor response)
                then Raise cannot_convert_error
                       (mkLoop (allMeetings st) (retryCount st) (cursorParam st)
                          (trace st ++ [Request (cursorParam st) (latency x)]))
                else Again (mkLoop (allMeetings st) 0 (Some (extract_cursor response))
                              (trace st ++ [Request (cursorParam st) (latency x);
                                            Wait 500]))
           else Done (mkLoop (allMeetings st) 0 (cursorParam st)
                        (trace st ++ [Request (cursorParam st) (latency x)]))))
  /\ (Sdk.extract_items response =
        match first_match sdk_item_shapes response with
        | Some v => v
        | None => VArr []
        end
      /\ forall (st : Sdk.loop_state),
           Sdk.response st = response ->
           first_match sdk_item_shapes response = None ->
           Sdk.try_until_call st =
             if Sdk.pager st
             then Sdk.Calls
                    (Sdk.mkLoop (Sdk.allMeetings st) (Sdk.retryCount st) response
                       (Sdk.pager st) (Sdk.cursorParam st)
                       (Sdk.trace st ++ [Sdk.Wait 500])) true
             else if truthy (member response "nextCursor")
             then Sdk.Calls
                    (Sdk.mkLoop (Sdk.allMeetings st) (Sdk.retryCount st) response
                       (Sdk.pager st) (Some (member response "nextCursor"))
                       (Sdk.trace st ++ [Sdk.Wait 500])) false
             else Sdk.NoNext
                    (Sdk.mkLoop (Sdk.allMeetings st) (Sdk.retryCount st) response
                       (Sdk.pager st) (Sdk.cursorParam st) (Sdk.trace st))).
Proof.
  intros Hn. split; [split; [|split]|split].
  - now apply extract_items_first_match.
  - now apply extract_cursor_first_truthy.
  - intros Hnone x st Hx.
    rewrite (loop_turn_page x st response [] Hx).
    + now rewrite app_nil_r.
    + unfold items_of. rewrite (extract_items_first_match response Hn), Hnone.
      reflexivity.
  - apply sdk_extract_items_first_match.
  - intros st Hst Hnone. unfold Sdk.try_until_call.
    rewrite Hst, sdk_extract_items_first_match, Hnone. reflexivity.
Qed.

Lemma page_shapes_in_priority_order_witness :
  extract_items shapeless_page = Ok (VArr [])
  /\ extract_cursor shapeless_page = VStr "c2"
  /\ Sdk.extract_items shapeless_page = VArr [].
Proof.
  destruct (page_shapes_in_priority_order shapeless_page eq_refl)
    as ((Hitems & Hcursor & _) & (Hsdk & _)).
  split; [exact Hitems|]. split; [exact Hcursor|exact Hsdk].
Defined.

(* ===================================================================== *)
(** ** The drain over the pages of the upstream *)
(* ===================================================================== *)

Lemma gt_zero_length (l : list value) :
  gt_zero (VNum (Z.of_nat (List.length l))) = negb (Nat.eqb (List.length l) 0).
Proof.
  unfold gt_zero, to_number, integer, above_zero.
  destruct l as [|x l]; [reflexivity|]. cbn [List.length Nat.eqb negb].
  assert ((Z.of_nat (S (List.length l)) <? 0) = false) as -> by (apply Z.ltb_ge; lia).
  assert ((0 <? Z.abs_N (Z.of_nat (S (List.length l))))%N = true) as ->
    by (apply N.ltb_lt; lia).
  reflexivity.
Qed.

(** The loop pushes the elements of an array, all of them and in
    order. *)
Lemma push_items_array (l acc : list value) : push_items (VArr l) acc = Ok (acc ++ l).
Proof.
  unfold push_items. cbn [truthy member String.eqb Ascii.eqb Bool.eqb unprintable].
  rewrite gt_zero_length. destruct l as [|x l]; cbn [List.length Nat.eqb negb].
  - now rewrite app_nil_r.
  - reflexivity.
Qed.

Lemma page_lists_items_of (p : value) (l : list value) :
  page_lists p l -> items_of p = Ok l.
Proof.
  intros [Hn Hshape]. unfold items_of. rewrite (extract_items_first_match p Hn).
  cbn [bind]. destruct (first_match item_shapes p) as [items|]; subst.
  - apply push_items_array.
  - reflexivity.
Qed.

Lemma leads_on_has_cursor (p : value) :
  nullish p = false -> leads_on p -> has_cursor p.
Proof.
  intros Hn (c & Hfind & Hprint). unfold has_cursor.
  rewrite (extract_cursor_first_truthy p Hn), Hfind.
  apply find_some in Hfind. destruct Hfind as [_ Ht].
  split; [now apply truthy_not_nullish|exact Hprint].
Qed.

Lemma ends_chain_no_cursor (p : value) :
  nullish p = false -> ends_chain p -> extract_cursor p = VNull.
Proof.
  intros Hn Hend. now rewrite (extract_cursor_first_truthy p Hn), Hend.
Qed.

Lemma pages_are_read (pages : list value) (lists : list (list value)) :
  Forall2 page_lists pages lists ->
  Forall leads_on pages ->
  Forall2 (fun p l => items_of p = Ok l) pages lists /\ Forall has_cursor pages.
Proof.
  induction 1 as [|p l pages lists Hp _ IH]; intros Hc; [now split|].
  inversion Hc as [|? ? Hcp Hc']; subst. destruct (IH Hc') as [Hl Hh].
  split; constructor; auto.
  - now apply page_lists_items_of.
  - apply leads_on_has_cursor; [apply Hp|exact Hcp].
Qed.




(** The direct server keeps the retry contract.  If the pages read so
    far all came through and every request for the next page is answered
    with status 429, the drain makes six requests for that page (the
    first and five retries), all with the cursor parameter the last page
    left, waits 2 s, 4 s, 8 s, 16 s and 32 s before the retries, asks the
    upstream for nothing more, and returns the records of the pages read
    so far instead of throwing. *)
Theorem rate_limit_five_retries_then_partial
    (apiKey : option string) (pages : list value) (lists : list (list value))
    (script : list exchange) (f1 f2 f3 f4 f5 f6 : exchange) (rest : list exchange) :
  key_set apiKey = true ->
  map outcome script = map HttpOk pages ->
  Forall2 page_lists pages lists ->
  Forall leads_on pages ->
  Forall rate_limited [f1; f2; f3; f4; f5; f6] ->
  exists st0 st,
    fetchAllMeetings apiKey script = (Pending st0, [])
    /\ fetchAllMeetings apiKey (script ++ [f1; f2; f3; f4; f5; f6] ++ rest)
       = (GaveUp st, rest)
    /\ returned (GaveUp st) = Some (Ok (List.concat lists))
    /\ trace st =
         trace st0 ++
           [Request (cursor_after pages) (latency f1); Wait (2 ^ 1 * 1000);
            Request (cursor_after pages) (latency f2); Wait (2 ^ 2 * 1000);
            Request (cursor_after pages) (latency f3); Wait (2 ^ 3 * 1000);
            Request (cursor_after pages) (latency f4); Wait (2 ^ 4 * 1000);
            Request (cursor_after pages) (latency f5); Wait (2 ^ 5 * 1000);
            Request (cursor_after pages) (latency f6)].
Proof.
  intros Hkey Hs Hl Hc Hf.
  destruct (pages_are_read pages lists Hl Hc) as [Hl' Hc'].
  destruct (drain_loop_pages pages lists script initial Hs Hl' Hc' eq_refl)
    as (st0 & Hrun & Hall & Hrc & Hcur & _).
  exists st0. eexists. unfold fetchAllMeetings. rewrite Hkey.
  split; [|split; [|split]].
  - rewrite <- (app_nil_r script) at 1. rewrite Hrun. reflexivity.
  - rewrite Hrun. apply drain_loop_six_rate_limited; assumption.
  - cbn [returned allMeetings]. now rewrite Hall.
  - cbn [trace]. rewrite Hcur. reflexivity.
Qed.

Lemma rate_limit_five_retries_then_partial_witness :
  exists st0 st,
    fetchAllMeetings (Some "key") [served demo_page_1] = (Pending st0, [])
    /\ fetchAllMeetings (Some "key")
         ([served demo_page_1]
            ++ [too_many; too_many; too_many; too_many; too_many; too_many]
            ++ [too_many; served demo_page_2])
       = (GaveUp st, [too_many; served demo_page_2])
    /\ returned (GaveUp st) = Some (Ok (List.concat [[VNum 1; VNum 2]]))
    /\ trace st =
         trace st0 ++
           [Request (cursor_after [demo_page_1]) 40; Wait (2 ^ 1 * 1000);
            Request (cursor_after [demo_page_1]) 40; Wait (2 ^ 2 * 1000);
            Request (cursor_after [demo_page_1]) 40; Wait (2 ^ 3 * 1000);
            Request (cursor_after [demo_page_1]) 40; Wait (2 ^ 4 * 1000);
            Request (cursor_after [demo_page_1]) 40; Wait (2 ^ 5 * 1000);
            Request (cursor_after [demo_page_1]) 40].
Proof.
  apply (rate_limit_five_retries_then_partial (Some "key") [demo_page_1]
           [[VNum 1; VNum 2]] [served demo_page_1]
           too_many too_many too_many too_many too_many too_many
           [too_many; served demo_page_2]).
  - reflexivity.
  - reflexivity.
  - repeat constructor.
  - repeat constructor. now exists (VStr "c1").
  - repeat constructor; do 2 eexists; reflexivity.
Defined.

(* ===================================================================== *)
(** ** Properties of the transcript handler *)
(* ===================================================================== *)

Lemma concat_cons (x : string) (l : list string) :
  String.concat "" (x :: l) = (x ++ String.concat "" l)%string.
Proof.
  destruct l as [|y l]; cbn [String.concat].
  - induction x as [|c x IH]; cbn; [reflexivity|]. now rewrite <- IH.
  - reflexivity.
Qed.

(** The code points of a string are its bytes, cut. *)
Lemma concat_code_points_bounded (n : nat) :
  forall s, (String.length s <= n)%nat -> String.concat "" (code_points s) = s.
Proof.
  induction n as [|n IH]; intros s Hn.
  - destruct s; [reflexivity|cbn in Hn; lia].
  - destruct s as [|a r]; [reflexivity|]. cbn [String.length] in Hn.
    assert (String.concat "" (code_points r) = r) as Hr by (apply IH; lia).
    cbn [code_points].
    destruct (utf8_width a) as [|[|[|[|[|w]]]]];
      try (rewrite concat_cons, Hr; reflexivity).
    + destruct r as [|b t]; [reflexivity|].
      rewrite concat_cons. cbn [String.append]. f_equal. f_equal.
      apply IH. cbn [String.length] in Hn. lia.
    + destruct r as [|b [|c t]]; try (rewrite concat_cons, Hr; reflexivity).
      rewrite concat_cons. cbn [String.append]. do 3 f_equal.
      apply IH. cbn [String.length] in Hn. lia.
    + destruct r as [|b [|c [|d t]]]; try (rewrite concat_cons, Hr; reflexivity).
      rewrite concat_cons. cbn [String.append]. do 4 f_equal.
      apply IH. cbn [String.length] in Hn. lia.
Qed.

Lemma concat_code_points (s : string) : String.concat "" (code_points s) = s.
Proof. now apply (concat_code_points_bounded (String.length s)). Qed.


Lemma digits_prefix_count (dv : ascii -> option N) (radix acc : N) (s : string) :
  snd (fst (digits_prefix dv radix acc s)) = 0%nat <-> opens_with dv s = false.
Proof.
  destruct s as [|c s]; cbn [digits_prefix opens_with]; [tauto|].
  destruct (dv c); [|tauto].
  destruct (digits_prefix dv radix (acc * radix + n) s) as [[v k] tail].
  cbn. split; discriminate.
Qed.

Lemma to_double_is_a_number (negative : bool) (n : N) :
  isNaN (to_double negative n) = false.
Proof.
  unfold to_double. destruct (n <? 2 ^ 53)%N; [reflexivity|].
  match goal with |- context [if ?b then Infinite _ else _] => destruct b end;
    reflexivity.
Qed.

(** [parseInt] gives NaN exactly when the string does not start with a
    number. *)
Lemma parseInt_NaN (s : string) :
  isNaN (parseInt s) = negb (numeric_start s).
Proof.
  unfold parseInt, numeric_start.
  destruct (signed (trim_start s)) as [negative unsigned]. cbn [snd].
  destruct (prefixed "x" "X" unsigned) as [r|].
  - pose proof (digits_prefix_count hex_val 16 0 r) as H.
    destruct (digits_prefix hex_val 16 0 r) as [[n count] tail]. cbn [fst snd] in H.
    destruct count.
    + now rewrite (proj1 H eq_refl).
    + rewrite to_double_is_a_number.
      destruct (opens_with hex_val r); [reflexivity|]. now specialize (proj2 H eq_refl).
  - pose proof (digits_prefix_count digit_val 10 0 unsigned) as H.
    destruct (digits_prefix digit_val 10 0 unsigned) as [[n count] tail].
    cbn [fst snd] in H. destruct count.
    + now rewrite (proj1 H eq_refl).
    + rewrite to_double_is_a_number.
      destruct (opens_with digit_val unsigned); [reflexivity|].
      now specialize (proj2 H eq_refl).
Qed.














(** White space of any kind before the id is skipped, and an id past
    2 ^ 53 is asked for as the double nearest to it. *)
Lemma id_edge_cases :
  snd (transcript_handler (Some "key") (utf8 160 ++ "42") hello) = [integer 42]
  /\ snd (transcript_handler (Some "key") (utf8 65279 ++ " -7") hello) = [integer (-7)]
  /\ snd (transcript_handler (Some "key") "9007199254740993" hello)
     = [integer 9007199254740992]
  /\ snd (transcript_handler (Some "key") "-0" hello) = [Finite true 0 0].
Proof. repeat split. Qed.






(* ===================================================================== *)
(** ** Properties of the normalization *)
(* ===================================================================== *)

(** Claim C8, as stated, fails: a record without [title] and with
    [meeting_title: "X"] is a plain object, comes back as it is, and is
    served without a [title]. *)
Lemma plain_record_gets_no_title :
  serializeMeeting aliased_only = aliased_only
  /\ member (serializeMeeting aliased_only) "title" = VUndef
  /\ serializeAll [aliased_only] = [aliased_only].
Proof. repeat split. Qed.

(** [JSON.stringify] throws on nothing but a BigInt. *)
Lemma json_copy_total (v : value) :
  has_bigint v = false -> exists c, json_copy v = Ok c.
Proof.
  induction v using value_nested_ind; cbn [has_bigint];
    intros Hb; try (eexists; reflexivity); try discriminate.
  - cbn [json_copy].
    assert (exists l', (fix copy_elems (l : list value) : result (list value) :=
               match l with
               | [] => Ok []
               | x :: rest =>
                   x' <- json_copy x ;;
                   rest' <- copy_elems rest ;;
                   Ok (match x' with Some y => y | None => VNull end :: rest')
               end) l = Ok l') as (l' & ->).
    { induction l as [|x l IHl]; [now eexists|].
      cbn [existsb] in Hb. apply orb_false_elim in Hb. destruct Hb as [Hx Hl].
      inversion H as [|? ? Hpx Hpl]; subst.
      destruct (Hpx Hx) as (c & ->). destruct (IHl Hpl Hl) as (l' & ->).
      now eexists. }
    now eexists.
  - cbn [json_copy].
    assert (exists ms', (fix copy_members (ms : list (string * value))
                : result (list (string * value)) :=
                match ms with
                | [] => Ok []
                | (k, x) :: rest =>
                    x' <- json_copy x ;;
                    rest' <- copy_members rest ;;
                    Ok (match x' with Some y => (k, y) :: rest' | None => rest' end)
                end) ms = Ok ms') as (ms' & ->).
    { induction ms as [|[k x] ms IHms]; [now eexists|].
      cbn [existsb snd] in Hb. apply orb_false_elim in Hb. destruct Hb as [Hx Hl].
      inversion H as [|? ? Hpx Hpl]; subst. cbn [snd] in Hpx.
      destruct (Hpx Hx) as (c & ->). destruct (IHms Hpl Hl) as (ms' & ->).
      now eexists. }
    now eexists.
Qed.

(** So a truthy value without BigInt never reaches the fallback. *)
Lemma json_roundtrip_total (v : value) :
  has_bigint v = false -> truthy v = true ->
  exists copy, json_roundtrip v = Ok copy.
Proof.
  intros Hb Ht. unfold json_roundtrip.
  destruct (json_copy_total v Hb) as ([copy|] & Hc); rewrite Hc; cbn [bind].
  - now eexists.
  - destruct v; simpl in *; try discriminate.
    + destruct ((fix copy_elems (l : list value) : result (list value) :=
                   match l with
                   | [] => Ok []
                   | x :: rest =>
                       x' <- json_copy x ;;
                       rest' <- copy_elems rest ;;
                       Ok (match x' with Some y => y | None => VNull end :: rest')
                   end) elems); simpl in *; discriminate.
    + destruct ((fix copy_members (ms : list (string * value))
                   : result (list (string * value)) :=
                   match ms with
                   | [] => Ok []
                   | (k, x) :: rest =>
                       x' <- json_copy x ;;
                       rest' <- copy_members rest ;;
                       Ok (match x' with Some y => (k, y) :: rest' | None => rest' end)
                   end) members); simpl in *; discriminate.
Qed.

Lemma serializeMeeting_falsy (meeting : value) :
  truthy meeting = false -> serializeMeeting meeting = VNull.
Proof. intros H. unfold serializeMeeting. now rewrite H. Qed.

Lemma serializeMeeting_truthy (meeting : value) :
  truthy meeting = true -> serializeMeeting meeting <> VNull.
Proof.
  intros H. unfold serializeMeeting. rewrite H. cbn [negb].
  destruct (is_plain meeting).
  - intros ->. discriminate.
  - destruct (json_roundtrip meeting) as [copy|e] eqn:Hcopy; [|discriminate].
    intros ->. unfold json_roundtrip in Hcopy.
    destruct meeting; simpl in *; try discriminate.
    + destruct ((fix copy_elems (l : list value) : result (list value) :=
                   match l with
                   | [] => Ok []
                   | x :: rest =>
                       x' <- json_copy x ;;
                       rest' <- copy_elems rest ;;
                       Ok (match x' with Some y => y | None => VNull end :: rest')
                   end) elems); simpl in *; discriminate.
    + destruct ((fix copy_members (ms : list (string * value))
                   : result (list (string * value)) :=
                   match ms with
                   | [] => Ok []
                   | (k, x) :: rest =>
                       x' <- json_copy x ;;
                       rest' <- copy_members rest ;;
                       Ok (match x' with Some y => (k, y) :: rest' | None => rest' end)
                   end) members); simpl in *; discriminate.
Qed.

(** The list served: the truthy entries, each normalized. *)
Lemma serializeAll_truthy (meetings : list value) :
  serializeAll meetings = map serializeMeeting (filter truthy meetings).
Proof.
  unfold serializeAll. induction meetings as [|m meetings IH]; [reflexivity|].
  cbn [map filter]. destruct (truthy m) eqn:Hm.
  - pose proof (serializeMeeting_truthy m Hm) as Hnn.
    destruct (serializeMeeting m) eqn:Hs; cbn [not_null map];
      try (now rewrite IH, ?Hs).
  - rewrite (serializeMeeting_falsy m Hm). exact IH.
Qed.

(** Claim C8, amended.  A falsy input ([null] among them) normalizes to
    [null]; a truthy plain object comes back unchanged, so a record with
    only [meeting_title] keeps no [title]; the aliasing is that of the
    fallback, taken when the input is not a plain object and its JSON
    round trip throws, which it does for no value free of BigInt: there
    [title] is [title || meeting_title], hence "X" for a record without
    [title] and with [meeting_title: "X"].  The list served is the
    normalized truthy entries and never holds [null]. *)
Theorem normalization_aliases_only_in_fallback
    (meeting : value) (meetings : list value) :
  (truthy meeting = false -> serializeMeeting meeting = VNull)
  /\ (truthy meeting = true -> is_plain meeting = true ->
      serializeMeeting meeting = meeting)
  /\ (truthy meeting = true -> is_plain meeting = false ->
      forall e, json_roundtrip meeting = Throw e ->
        serializeMeeting meeting = fallback_fields meeting
        /\ member (serializeMeeting meeting) "title"
           = or_else (member meeting "title") (member meeting "meeting_title")
        /\ forall x, truthy (member meeting "title") = false ->
             member meeting "meeting_title" = VStr x ->
             member (serializeMeeting meeting) "title" = VStr x)
  /\ (truthy meeting = true -> is_plain meeting = false ->
      has_bigint meeting = false ->
      json_roundtrip meeting = Ok (serializeMeeting meeting))
  /\ serializeAll meetings = map serializeMeeting (filter truthy meetings)
  /\ ~ In VNull (serializeAll meetings).
Proof.
  split; [apply serializeMeeting_falsy|].
  split.
  { intros Ht Hp. unfold serializeMeeting. now rewrite Ht, Hp. }
  split.
  { intros Ht Hp e He.
    assert (serializeMeeting meeting = fallback_fields meeting) as Hs.
    { unfold serializeMeeting. now rewrite Ht, Hp, He. }
    rewrite Hs. split; [reflexivity|]. split; [reflexivity|].
    intros x Hno Halias. cbn. unfold or_else. now rewrite Hno. }
  split.
  { intros Ht Hp Hb. destruct (json_roundtrip_total meeting Hb Ht) as (copy & Hc).
    unfold serializeMeeting. now rewrite Ht, Hp, Hc. }
  split; [apply serializeAll_truthy|].
  unfold serializeAll. intros Hin. apply filter_In in Hin.
  destruct Hin as [_ Hnn]. discriminate.
Qed.

Lemma normalization_aliases_only_in_fallback_witness :
  serializeMeeting VNull = VNull
  /\ serializeMeeting aliased_only = aliased_only
  /\ member (serializeMeeting unserializable) "title" = VStr "X"
  /\ ~ In VNull (serializeAll [VNull; aliased_only; unserializable]).
Proof.
  destruct (normalization_aliases_only_in_fallback VNull [])
    as (Hnull & _).
  destruct (normalization_aliases_only_in_fallback aliased_only [])
    as (_ & Hplain & _).
  destruct (normalization_aliases_only_in_fallback unserializable
              [VNull; aliased_only; unserializable])
    as (_ & _ & Hfall & _ & _ & Hlist).
  split; [apply Hnull; reflexivity|].
  split; [apply Hplain; reflexivity|].
  split; [|exact Hlist].
  destruct (Hfall eq_refl eq_refl bigint_error eq_refl) as (_ & _ & Halias).
  apply Halias; reflexivity.
Defined.

(* ===================================================================== *)
(** ** The SDK-based server: the same properties *)
(* ===================================================================== *)

Lemma push_error_is_rethrown (items : value) (acc : list value) (e : error) (n : Z) :
  push_items items acc = Throw e -> catch_block e n = Rethrow.
Proof.
  unfold push_items.
  destruct (truthy items); [|discriminate].
  destruct (unprintable (member items "length")); [now intros [= <-]|].
  destruct (gt_zero (member items "length")); [|discriminate].
  destruct items; cbn [spread bind]; try discriminate; now intros [= <-].
Qed.

Lemma sdk_try_until_call_advances (st : Sdk.loop_state) (l : list value) :
  sdk_items_of (Sdk.response st, Sdk.pager st) = Ok l ->
  sdk_advances (Sdk.response st, Sdk.pager st) ->
  exists via c,
    Sdk.try_until_call st =
      Sdk.Calls (Sdk.mkLoop (Sdk.allMeetings st ++ l) (Sdk.retryCount st)
                   (Sdk.response st) (Sdk.pager st) c
                   (Sdk.trace st ++ [Sdk.Wait 500])) via.
Proof.
  unfold sdk_items_of, sdk_advances, Sdk.try_until_call. cbn [fst snd].
  intros Hl Hadv. rewrite push_items_acc, Hl. cbn [bind].
  destruct (Sdk.pager st).
  - now eexists _, _.
  - destruct Hadv as [Hp|Hc]; [discriminate|]. rewrite Hc. now eexists _, _.
Qed.

Lemma sdk_try_until_call_ends (st : Sdk.loop_state) (l : list value) :
  sdk_items_of (Sdk.response st, Sdk.pager st) = Ok l ->
  sdk_ends (Sdk.response st, Sdk.pager st) ->
  Sdk.try_until_call st =
    Sdk.NoNext (Sdk.mkLoop (Sdk.allMeetings st ++ l) (Sdk.retryCount st)
                  (Sdk.response st) (Sdk.pager st) (Sdk.cursorParam st)
                  (Sdk.trace st)).
Proof.
  unfold sdk_items_of, sdk_ends, Sdk.try_until_call. cbn [fst snd].
  intros Hl (Hp & Hc). now rewrite push_items_acc, Hl, Hp, Hc.
Qed.

(** The loop reads the page it holds and each page the calls resolve to,
    up to the last of them, which it then holds. *)
Lemma sdk_loop_reads (reads : list (page * list value)) :
  forall (cur : page) (l0 : list value) (final : page)
         (script : list Sdk.sdk_call) (st : Sdk.loop_state),
    Sdk.response st = fst cur -> Sdk.pager st = snd cur ->
    sdk_items_of cur = Ok l0 -> sdk_advances cur ->
    Forall (fun b => truthy (fst (fst b)) = true
                     /\ sdk_items_of (fst b) = Ok (snd b)
                     /\ sdk_advances (fst b)) reads ->
    truthy (fst final) = true ->
    Forall2 sdk_serves (map fst reads ++ [final]) script ->
    exists st',
      (forall tail, Sdk.loop (script ++ tail) st = Sdk.loop tail st')
      /\ Sdk.allMeetings st'
         = Sdk.allMeetings st ++ l0 ++ List.concat (map snd reads)
      /\ Sdk.response st' = fst final
      /\ Sdk.pager st' = snd final.
Proof.
  induction reads as [|[p l] reads IH];
    intros cur l0 final script st Hr Hp Hl Hadv Hreads Hfinal Hscript.
  - inversion Hscript as [|? x ? rest Hx Hnil]; subst. inversion Hnil; subst.
    destruct cur as [c cp]. cbn [fst snd] in Hr, Hp.
    destruct (sdk_try_until_call_advances st l0) as (via & cur' & Htry).
    { now rewrite Hr, Hp. }
    { now rewrite Hr, Hp. }
    eexists. split; [intros tail|split; [|split]].
    + cbn [app Sdk.loop]. rewrite Htry. unfold sdk_serves in Hx. rewrite Hx.
      rewrite (truthy_not_nullish _ Hfinal), Hfinal. reflexivity.
    + cbn. now rewrite app_nil_r.
    + reflexivity.
    + reflexivity.
  - inversion Hscript as [|? x ? rest Hx Hrest]; subst.
    inversion Hreads as [|? ? (Hpt & Hpl & Hpa) Hreads']; subst.
    cbn [fst snd] in *.
    destruct cur as [c cp]. cbn [fst snd] in Hr, Hp.
    destruct (sdk_try_until_call_advances st l0) as (via & cur' & Htry).
    { now rewrite Hr, Hp. }
    { now rewrite Hr, Hp. }
    set (st4 := Sdk.mkLoop (Sdk.allMeetings st ++ l0) 0 (fst p) (snd p) cur'
                  ((Sdk.trace st ++ [Sdk.Wait 500])
                     ++ [if via then Sdk.Next (Sdk.took x)
                         else Sdk.ListMeetings cur' (Sdk.took x)])).
    destruct (IH p l final rest st4 eq_refl eq_refl Hpl Hpa Hreads' Hfinal Hrest)
      as (st' & Hrun & Hall & Hresp & Hpag).
    exists st'. split; [intros tail|split; [|split]]; auto.
    + cbn [app Sdk.loop]. rewrite Htry. unfold sdk_serves in Hx. rewrite Hx.
      cbn [fst snd]. rewrite (truthy_not_nullish _ Hpt), Hpt. apply Hrun.
    + rewrite Hall. cbn. now rewrite <- !app_assoc.
Qed.

Lemma sdk_loop_closes (last : page) (llast : list value)
    (closing : list Sdk.sdk_call) (st : Sdk.loop_state) :
  Sdk.response st = fst last -> Sdk.pager st = snd last ->
  sdk_items_of last = Ok llast ->
  sdk_closes last closing ->
  exists st',
    Sdk.loop closing st = (Sdk.Finished st', [])
    /\ Sdk.allMeetings st' = Sdk.allMeetings st ++ llast.
Proof.
  intros Hr Hp Hl Hclose. destruct last as [c cp]. cbn [fst snd] in Hr, Hp.
  destruct Hclose as [(Hends & ->)|(Hadv & x & r & p & -> & Hx & Hnull)].
  - eexists. cbn [Sdk.loop].
    rewrite (sdk_try_until_call_ends st llast).
    + split; reflexivity.
    + now rewrite Hr, Hp.
    + now rewrite Hr, Hp.
  - destruct (sdk_try_until_call_advances st llast) as (via & cur' & Htry).
    { now rewrite Hr, Hp. }
    { now rewrite Hr, Hp. }
    eexists. cbn [Sdk.loop]. rewrite Htry, Hx, Hnull. split; reflexivity.
Qed.

Lemma sdk_page_lists_items_of (p : page) (l : list value) :
  sdk_page_lists p l -> sdk_items_of p = Ok l.
Proof.
  unfold sdk_page_lists, sdk_items_of. rewrite sdk_extract_items_first_match.
  destruct (first_match sdk_item_shapes (fst p)) as [items|]; intros ->.
  - apply push_items_array.
  - reflexivity.
Qed.

(** The drain of the SDK-based server also returns the arrays the pages
    list, in order, for pages that all resolve: each page but the last
    leads to a further call, and the pagination closes after the last. *)
Theorem sdk_fetchAllMeetings_concatenates_pages
    (book : list (page * list value)) (last : page) (llast : list value)
    (script closing : list Sdk.sdk_call) :
  Forall (fun b => truthy (fst (fst b)) = true
                   /\ sdk_page_lists (fst b) (snd b)
                   /\ sdk_advances (fst b)) book ->
  truthy (fst last) = true ->
  sdk_page_lists last llast ->
  Forall2 sdk_serves (map fst book ++ [last]) script ->
  sdk_closes last closing ->
  exists st,
    Sdk.fetchAllMeetings (script ++ closing) = (Sdk.Finished st, [])
    /\ Sdk.returned (Sdk.Finished st)
       = Some (Ok (List.concat (map snd book) ++ llast)).
Proof.
  intros Hbook Hlast Hllast Hscript Hclose.
  apply sdk_page_lists_items_of in Hllast.
  assert (Forall (fun b => truthy (fst (fst b)) = true
                           /\ sdk_items_of (fst b) = Ok (snd b)
                           /\ sdk_advances (fst b)) book) as Hbook'.
  { eapply Forall_impl; [|exact Hbook]. intros b (Ht & Hl & Ha).
    split; [exact Ht|]. split; [now apply sdk_page_lists_items_of|exact Ha]. }
  clear Hbook. rename Hbook' into Hbook.
  destruct book as [|[c0 l0] reads].
  - inversion Hscript as [|? x0 ? rest Hx0 Hnil]; subst. inversion Hnil; subst.
    unfold sdk_serves in Hx0. cbn [app Sdk.fetchAllMeetings]. rewrite Hx0, Hlast.
    destruct (sdk_loop_closes last llast closing
                (Sdk.mkLoop [] 0 (fst last) (snd last) None
                   [Sdk.ListMeetings None (Sdk.took x0)])
                eq_refl eq_refl Hllast Hclose) as (st' & Hrun & Hall).
    exists st'. split; [exact Hrun|]. cbn [Sdk.returned]. now rewrite Hall.
  - inversion Hscript as [|? x0 ? rest Hx0 Hrest]; subst.
    inversion Hbook as [|? ? (Hc0 & Hl0 & Ha0) Hreads]; subst.
    cbn [fst snd] in *.
    unfold sdk_serves in Hx0. cbn [app Sdk.fetchAllMeetings]. rewrite Hx0, Hc0.
    destruct (sdk_loop_reads reads c0 l0 last rest
                (Sdk.mkLoop [] 0 (fst c0) (snd c0) None
                   [Sdk.ListMeetings None (Sdk.took x0)])
                eq_refl eq_refl Hl0 Ha0 Hreads Hlast Hrest)
      as (st1 & Hrun1 & Hall1 & Hresp1 & Hpag1).
    rewrite Hrun1.
    destruct (sdk_loop_closes last llast closing st1 Hresp1 Hpag1 Hllast Hclose)
      as (st' & Hrun & Hall).
    exists st'. split; [exact Hrun|]. cbn [Sdk.returned].
    rewrite Hall, Hall1. cbn. now rewrite <- app_assoc.
Qed.

Lemma sdk_fetchAllMeetings_concatenates_pages_witness :
  exists st,
    Sdk.fetchAllMeetings ([sdk_served sdk_page_1; sdk_served sdk_page_2] ++ [sdk_no_more])
      = (Sdk.Finished st, [])
    /\ Sdk.returned (Sdk.Finished st)
       = Some (Ok (List.concat (map snd [(sdk_page_1, [VNum 1; VNum 2])]) ++ [VNum 3])).
Proof.
  apply (sdk_fetchAllMeetings_concatenates_pages
           [(sdk_page_1, [VNum 1; VNum 2])] sdk_page_2 [VNum 3]
           [sdk_served sdk_page_1; sdk_served sdk_page_2] [sdk_no_more]).
  - repeat constructor.
  - reflexivity.
  - reflexivity.
  - repeat constructor.
  - right. split; [now left|]. now exists sdk_no_more, VNull, false.
Defined.

(** Claim C2 fails in the SDK-based server.  A first call rejected with
    429 is awaited outside the [try] of the loop: the drain throws at
    once, without any retry.  A later call rejected with 429 six times is
    retried five times, but every turn that follows [continue] reads the
    held page again: the list returned holds the items of that page six
    times. *)
Lemma sdk_rate_limit_first_call_throws_and_retries_duplicate :
  Sdk.fetchAllMeetings [sdk_too_many; sdk_served sdk_page_1]
  = (Sdk.Threw (mkError None (Some 429) "API error occurred: Status 429")
       (Sdk.mkLoop [] 0 VUndef false None [Sdk.ListMeetings None 40]),
     [sdk_served sdk_page_1])
  /\ Sdk.returned
       (fst (Sdk.fetchAllMeetings
               [sdk_served sdk_page_1;
                sdk_too_many; sdk_too_many; sdk_too_many;
                sdk_too_many; sdk_too_many; sdk_too_many;
                sdk_served sdk_page_2]))
     = Some (Ok [VNum 1; VNum 2; VNum 1; VNum 2; VNum 1; VNum 2;
                 VNum 1; VNum 2; VNum 1; VNum 2; VNum 1; VNum 2]).
Proof. split; reflexivity. Qed.

(** Whatever error the first call is rejected with, the drain throws it
    and makes no further call. *)
Lemma sdk_first_call_rejected_is_thrown (x : Sdk.sdk_call)
    (rest : list Sdk.sdk_call) (e : error) :
  Sdk.answer x = Sdk.Rejects e ->
  Sdk.returned (fst (Sdk.fetchAllMeetings (x :: rest))) = Some (Throw e)
  /\ snd (Sdk.fetchAllMeetings (x :: rest)) = rest.
Proof. intros H. cbn [Sdk.fetchAllMeetings]. rewrite H. split; reflexivity. Qed.

(** The transcript handler of the SDK-based server: the id test is the
    same, and a falsy extracted transcript is answered like an absent
    one. *)
Lemma sdk_invalid_id_is_rejected_before_sdk (meetingId : string) (o : Sdk.sdk_outcome) :
  numeric_start meetingId = false ->
  Sdk.transcript_handler meetingId o
  = (mkResponse 400
       (VObj [("error", VStr "Invalid meeting ID");
              ("recording_id", VStr meetingId)]), []).
Proof.
  intros H. unfold Sdk.transcript_handler. now rewrite parseInt_NaN, H.
Qed.

(** There the value the call resolves to is falsy exactly when what the
    extraction gives is, [null] included; an envelope around an empty
    transcript is relayed as well. *)
Lemma sdk_falsy_transcript_is_not_found (meetingId : string)
    (r : value) (p : bool) (e : error) :
  numeric_start meetingId = true ->
  truthy r = false ->
  is_404 e = true ->
  Sdk.transcript_handler meetingId (Sdk.Resolves r p)
  = (mkResponse 404
       (VObj [("error", VStr "Transcript not found");
              ("recording_id", VStr meetingId)]), [parseInt meetingId])
  /\ Sdk.transcript_handler meetingId (Sdk.Rejects e)
     = Sdk.transcript_handler meetingId (Sdk.Resolves r p)
  /\ Sdk.transcript_handler "42" (Sdk.Resolves (VObj [("transcript", VStr "")]) p)
     = (mkResponse 200 (VObj [("transcript", VObj [("transcript", VStr "")])]),
        [integer 42]).
Proof.
  intros Hid Hfalsy H404. unfold Sdk.transcript_handler at 1 2 3.
  rewrite parseInt_NaN, Hid. cbn [negb]. unfold Sdk.extract_transcript.
  rewrite Hfalsy, H404. cbn [andb negb]. rewrite Hfalsy. now repeat split.
Qed.

(** The cache write of the SDK-based server: the timestamp written with
    the list is the clock value read on entry. *)
Lemma sdk_cache_timestamp_is_read_before_drain (now : Z)
    (script : list Sdk.sdk_call) (s : server) (meetings : list value) :
  cache_get s now = None ->
  Sdk.returned (fst (Sdk.fetchAllMeetings script)) = Some (Ok meetings) ->
  exists reply,
    Sdk.meetings_handler now script s
      = Some (reply, cache_set (serializeAll meetings) now).
Proof.
  intros Hmiss Hret. unfold Sdk.meetings_handler. rewrite Hmiss, Hret.
  now eexists.
Qed.

(* ===================================================================== *)
(** ** The drain: retries, waits and requests *)
(* ===================================================================== *)

Lemma drain_loop_refusals (failures : list exchange) :
  forall (tail : list exchange) (st : loop_state),
    Forall rate_limited failures ->
    retryCount st + Z.of_nat (List.length failures) <= maxRetries ->
    0 <= retryCount st ->
    exists tr,
      drain_loop (failures ++ tail) st =
        drain_loop tail
          (mkLoop (allMeetings st) (retryCount st + Z.of_nat (List.length failures))
             (cursorParam st) (trace st ++ tr)).
Proof.
  induction failures as [|x failures IH]; intros tail st Hf Hle Hge.
  - exists []. cbn [app List.length]. rewrite Z.add_0_r, app_nil_r.
    now destruct st.
  - inversion Hf as [|? ? Hx Hf']; subst. cbn [app drain_loop].
    rewrite (loop_turn_rate_limited x st Hx).
    cbn [List.length] in Hle. rewrite Nat2Z.inj_succ in Hle.
    assert ((retryCount st + 1 <=? maxRetries) = true) as ->
      by (apply Z.leb_le; lia).
    set (st1 := mkLoop (allMeetings st) (retryCount st + 1) (cursorParam st)
                  (trace st ++ [Request (cursorParam st) (latency x);
                                Wait (2 ^ (retryCount st + 1) * 1000)])).
    destruct (IH tail st1 Hf') as (tr & ->).
    + cbn [retryCount st1]. lia.
    + cbn [retryCount st1]. lia.
    + cbn [retryCount allMeetings cursorParam trace st1 List.length].
      rewrite Nat2Z.inj_succ. eexists.
      rewrite <- app_assoc. f_equal. f_equal. lia.
Qed.

Lemma drain_loop_fair_rounds (rounds : list round) :
  forall (tail : list exchange) (st : loop_state),
    Forall fair_round rounds ->
    Forall (fun r => leads_on (granted_page r)) rounds ->
    retryCount st = 0 ->
    exists st',
      drain_loop (flat_map play rounds ++ tail) st = drain_loop tail st'
      /\ allMeetings st' = allMeetings st ++ List.concat (map granted_items rounds)
      /\ retryCount st' = 0.
Proof.
  induction rounds as [|r rounds IH]; intros tail st Hfair Hcur Hrc.
  - exists st. cbn. now rewrite app_nil_r.
  - inversion Hfair as [|? ? (Hrefused & Hlen & Hgranted & Hitems) Hfair']; subst.
    inversion Hcur as [|? ? Hc Hcur']; subst.
    cbn [flat_map]. unfold play at 1. rewrite <- !app_assoc.
    destruct (drain_loop_refusals (refused r)
                ([granted r] ++ flat_map play rounds ++ tail) st Hrefused)
      as (tr & ->).
    { rewrite Hrc. unfold maxRetries. lia. }
    { rewrite Hrc. lia. }
    cbn [app drain_loop].
    rewrite (loop_turn_page (granted r) _ (granted_page r) (granted_items r)
               Hgranted (page_lists_items_of _ _ Hitems)).
    destruct (leads_on_has_cursor _ (proj1 Hitems) Hc) as [Hc1 Hpr].
    rewrite Hc1, Hpr. cbn [negb].
    match goal with
    | |- exists _, drain_loop _ ?s1 = _ /\ _ =>
        destruct (IH tail s1 Hfair' Hcur' eq_refl) as (st' & -> & Hall & Hrc')
    end.
    exists st'. split; [reflexivity|]. split; [|exact Hrc'].
    rewrite Hall. cbn. now rewrite <- app_assoc.
Qed.

(** The retry budget is per page: as long as no page is refused more
    than five times in a row, the drain reads all the pages and returns
    their items in order. *)
Theorem refusals_within_budget_do_not_truncate
    (apiKey : option string) (rounds : list round) (last : round) :
  key_set apiKey = true ->
  Forall fair_round (rounds ++ [last]) ->
  Forall (fun r => leads_on (granted_page r)) rounds ->
  ends_chain (granted_page last) ->
  exists st,
    fetchAllMeetings apiKey (flat_map play (rounds ++ [last])) = (Finished st, [])
    /\ returned (Finished st)
       = Some (Ok (List.concat (map granted_items (rounds ++ [last])))).
Proof.
  intros Hkey Hfair Hcur Hlast.
  apply Forall_app in Hfair. destruct Hfair as [Hfair Hl].
  inversion Hl as [|? ? (Hrefused & Hlen & Hgranted & Hitems) _]; subst.
  unfold fetchAllMeetings. rewrite Hkey.
  rewrite flat_map_app. cbn [flat_map]. rewrite app_nil_r.
  destruct (drain_loop_fair_rounds rounds (play last) initial Hfair Hcur eq_refl)
    as (st' & -> & Hall & Hrc).
  unfold play.
  destruct (drain_loop_refusals (refused last) [granted last] st' Hrefused)
    as (tr & ->).
  { rewrite Hrc. unfold maxRetries. lia. }
  { rewrite Hrc. lia. }
  rewrite (drain_loop_last_page (granted last) [] _ (granted_page last)
             (granted_items last) Hgranted (page_lists_items_of _ _ Hitems)
             (ends_chain_no_cursor _ (proj1 Hitems) Hlast)).
  eexists. split; [reflexivity|].
  cbn [returned allMeetings]. rewrite Hall, map_app, concat_app. cbn.
  now rewrite app_nil_r.
Qed.

Lemma refusals_within_budget_do_not_truncate_witness :
  exists st,
    fetchAllMeetings (Some "key")
      (flat_map play
         ([mkRound [too_many; too_many] (served demo_page_1) demo_page_1
             [VNum 1; VNum 2]]
          ++ [mkRound [too_many; too_many; too_many; too_many; too_many]
                (served demo_page_2) demo_page_2 [VNum 3]]))
    = (Finished st, [])
    /\ returned (Finished st)
       = Some (Ok (List.concat
                     (map granted_items
                        ([mkRound [too_many; too_many] (served demo_page_1)
                            demo_page_1 [VNum 1; VNum 2]]
                         ++ [mkRound [too_many; too_many; too_many; too_many; too_many]
                               (served demo_page_2) demo_page_2 [VNum 3]])))).
Proof.
  apply (refusals_within_budget_do_not_truncate (Some "key")).
  - reflexivity.
  - repeat constructor; do 2 eexists; reflexivity.
  - repeat constructor. now exists (VStr "c1").
  - reflexivity.
Defined.

Lemma allowed_backoff (n : Z) :
  1 <= n <= 5 -> allowed_wait (Wait (2 ^ n * 1000)).
Proof.
  intros Hn.
  assert (n = 1 \/ n = 2 \/ n = 3 \/ n = 4 \/ n = 5) as Hcases by lia.
  destruct Hcases as [->|[->|[->|[->| ->]]]]; cbn; auto 10.
Qed.

Lemma count_requests_app (a b : list event) :
  count_requests (a ++ b) = (count_requests a + count_requests b)%nat.
Proof.
  induction a as [|[c t|ms] a IH]; cbn; auto.
Qed.

(** What a turn does to the trace, to [retryCount] and to the count of
    requests, by whether the request brought a page. *)
Lemma loop_turn_progress (x : exchange) (st : loop_state) :
  0 <= retryCount st <= 5 ->
  Forall allowed_wait (trace st) ->
  Forall allowed_wait (trace (turn_state (loop_turn x st)))
  /\ count_requests (trace (turn_state (loop_turn x st)))
     = S (count_requests (trace st))
  /\ match loop_turn x st with
     | Again st' =>
         0 <= retryCount st' <= 5
         /\ retryCount st' = if succeeded x then 0 else retryCount st + 1
     | _ => True
     end.
Proof.
  intros Hrc Htr.
  assert (forall tr, count_requests (trace st ++ Request (cursorParam st) (latency x) :: tr)
                     = S (count_requests (trace st) + count_requests tr)) as Hcount.
  { intros tr. rewrite count_requests_app. cbn. lia. }
  assert (Forall allowed_wait (trace st ++ [Request (cursorParam st) (latency x)]))
    as Htr1.
  { apply Forall_app. split; [exact Htr|]. now repeat constructor. }
  assert (forall e,
            Forall allowed_wait
              (trace (turn_state
                        (on_error e (log (Request (cursorParam st) (latency x)) st))))
            /\ count_requests
                 (trace (turn_state
                           (on_error e (log (Request (cursorParam st) (latency x)) st))))
               = S (count_requests (trace st))
            /\ match on_error e (log (Request (cursorParam st) (latency x)) st) with
               | Again st' =>
                   0 <= retryCount st' <= 5 /\ retryCount st' = retryCount st + 1
               | _ => True
               end) as Herr.
  { intros e. unfold on_error, catch_block, log.
    cbn [retryCount allMeetings cursorParam trace].
    destruct (is_rate_limit e).
    - destruct (retryCount st + 1 <=? maxRetries) eqn:Hle;
        cbn [turn_state retryCount trace].
      + apply Z.leb_le in Hle. unfold maxRetries in Hle.
        repeat split; try lia.
        * apply Forall_app. split; [exact Htr1|].
          constructor; [|constructor]. apply allowed_backoff. lia.
        * rewrite <- app_assoc. cbn [app]. rewrite Hcount. cbn. lia.
      + repeat split; [exact Htr1|].
        rewrite Hcount. cbn. lia.
    - cbn [turn_state retryCount trace].
      repeat split; [exact Htr1|].
      rewrite Hcount. cbn. lia. }
  unfold succeeded, loop_turn, items_of.
  destruct (fathomResponse (outcome x)) as [r|e]; cbn [bind]; [|apply Herr].
  unfold on_response.
  destruct (extract_items r) as [items|e]; cbn [bind]; [|apply Herr].
  rewrite push_items_acc.
  destruct (push_items items []) as [l|e]; cbn [bind]; [|apply Herr].
  unfold log. cbn [allMeetings retryCount cursorParam trace].
  destruct (negb (nullish (extract_cursor r)));
    [destruct (unprintable (extract_cursor r));
     [rewrite cannot_convert_is_rethrown|]|];
    cbn [turn_state retryCount trace]; repeat split; try lia.
  - exact Htr1.
  - rewrite Hcount. cbn. lia.
  - apply Forall_app. split; [exact Htr1|].
    constructor; [|constructor]. cbn. auto.
  - rewrite <- app_assoc. cbn [app]. rewrite Hcount. cbn. lia.
  - exact Htr1.
  - rewrite Hcount. cbn. lia.
Qed.

Lemma drain_loop_bounds (script : list exchange) :
  forall (st : loop_state) (c : completion) (unread : list exchange) (n : nat),
    0 <= retryCount st <= 5 ->
    Forall allowed_wait (trace st) ->
    Z.of_nat (count_requests (trace st)) <= 6 * Z.of_nat n + retryCount st ->
    drain_loop script st = (c, unread) ->
    exists asked,
      script = asked ++ unread
      /\ Forall allowed_wait (trace (final_state c))
      /\ count_requests (trace (final_state c))
         = (count_requests (trace st) + List.length asked)%nat
      /\ Z.of_nat (count_requests (trace (final_state c)))
         <= 6 * Z.of_nat (n + List.length (filter succeeded asked)) + 6.
Proof.
  induction script as [|x script IH]; intros st c unread n Hrc Htr Hreq H.
  - cbn in H. injection H as <- <-. exists [].
    cbn [app final_state List.length filter].
    rewrite !Nat.add_0_r. repeat split; auto. lia.
  - cbn [drain_loop] in H.
    pose proof (loop_turn_progress x st Hrc Htr) as (Htr' & Hcnt & Hagain).
    destruct (loop_turn x st) as [st'|st'|st'|e st'] eqn:Hturn;
      cbn [turn_state] in *.
    + destruct Hagain as (Hrc' & Hnext).
      assert (Z.of_nat (count_requests (trace st'))
              <= 6 * Z.of_nat (n + (if succeeded x then 1 else 0)) + retryCount st')
        as Hreq'.
      { rewrite Hcnt, Hnext. destruct (succeeded x); lia. }
      destruct (IH st' c unread _ Hrc' Htr' Hreq' H)
        as (asked & -> & Hw & Hc & Hb).
      exists (x :: asked). split; [reflexivity|]. split; [exact Hw|].
      split.
      * rewrite Hc, Hcnt. cbn [List.length]. lia.
      * cbn [filter]. destruct (succeeded x); cbn [List.length] in *; lia.
    + injection H as <- <-. exists [x]. cbn [final_state app List.length filter].
      split; [reflexivity|]. split; [exact Htr'|]. split; [lia|].
      rewrite Hcnt. destruct (succeeded x); cbn [List.length]; lia.
    + injection H as <- <-. exists [x]. cbn [final_state app List.length filter].
      split; [reflexivity|]. split; [exact Htr'|]. split; [lia|].
      rewrite Hcnt. destruct (succeeded x); cbn [List.length]; lia.
    + injection H as <- <-. exists [x]. cbn [final_state app List.length filter].
      split; [reflexivity|]. split; [exact Htr'|]. split; [lia|].
      rewrite Hcnt. destruct (succeeded x); cbn [List.length]; lia.
Qed.

(** Whatever the upstream answers, every wait of the drain is the pause
    of 500 ms between pages or one of the five backoff steps: it never
    waits more than 32 seconds at a time. *)
Theorem drain_waits_are_bounded (apiKey : option string) (script : list exchange) :
  Forall allowed_wait (trace (final_state (fst (fetchAllMeetings apiKey script)))).
Proof.
  unfold fetchAllMeetings. destruct (key_set apiKey); [|constructor].
  destruct (drain_loop script initial) as [c unread] eqn:H.
  destruct (drain_loop_bounds script initial c unread 0) as (asked & _ & Hw & _);
    cbn; auto; try lia.
Qed.

(** The drain makes one request per answer it takes from the upstream,
    and at most six for each page it reads plus six: it cannot loop on a
    page for ever. *)
Theorem drain_requests_are_bounded
    (apiKey : option string) (script : list exchange)
    (c : completion) (unread : list exchange) :
  fetchAllMeetings apiKey script = (c, unread) ->
  exists asked,
    script = asked ++ unread
    /\ count_requests (trace (final_state c)) = List.length asked
    /\ (List.length asked <= 6 * (List.length (filter succeeded asked) + 1))%nat.
Proof.
  unfold fetchAllMeetings. destruct (key_set apiKey).
  - intros H.
    destruct (drain_loop_bounds script initial c unread 0) as (asked & Hs & _ & Hc & Hb);
      cbn; auto; try lia.
    exists asked. cbn in Hc. split; [exact Hs|]. split; [exact Hc|].
    rewrite Hc in Hb. cbn [Nat.add] in Hb. lia.
  - intros [= <- <-]. exists []. cbn. repeat split. lia.
Qed.

Lemma drain_requests_are_bounded_witness :
  exists asked,
    throttled_script = asked ++ [served demo_page_2]
    /\ count_requests
         (trace (final_state (fst (fetchAllMeetings (Some "key") throttled_script))))
       = List.length asked
    /\ (List.length asked <= 6 * (List.length (filter succeeded asked) + 1))%nat.
Proof.
  destruct (drain_requests_are_bounded (Some "key") throttled_script
              (fst (fetchAllMeetings (Some "key") throttled_script))
              [served demo_page_2] eq_refl)
    as (asked & H1 & H2 & H3).
  exists asked. split; [exact H1|]. split; [exact H2|exact H3].
Defined.

(** However the drain ends, what it has accumulated is exactly the items
    of the pages it read, in the order it read them: a refused or failed
    request adds nothing, and no page is added twice. *)
Theorem fetchAllMeetings_gathers_pages_read
    (apiKey : option string) (script : list exchange)
    (c : completion) (unread : list exchange) :
  fetchAllMeetings apiKey script = (c, unread) ->
  exists asked,
    script = asked ++ unread
    /\ allMeetings (final_state c) = flat_map contribution asked.
Proof.
  unfold fetchAllMeetings. destruct (key_set apiKey).
  - intros H. destruct (drain_loop_gathers script initial c unread H)
      as (asked & Hs & Hall).
    now exists asked.
  - intros [= <- <-]. now exists [].
Qed.

Lemma fetchAllMeetings_gathers_pages_read_witness :
  exists asked,
    throttled_script = asked ++ [served demo_page_2]
    /\ allMeetings (final_state (fst (fetchAllMeetings (Some "key") throttled_script)))
       = flat_map contribution asked.
Proof.
  apply (fetchAllMeetings_gathers_pages_read (Some "key") throttled_script
           (fst (fetchAllMeetings (Some "key") throttled_script))
           [served demo_page_2]).
  reflexivity.
Defined.

(* ===================================================================== *)
(** ** The routes end to end *)
(* ===================================================================== *)

Lemma serializeAll_plain (records : list value) :
  Forall plain_record records -> serializeAll records = records.
Proof.
  unfold serializeAll. induction 1 as [|m records (Ht & Hp) _ IH]; [reflexivity|].
  cbn [map filter].
  assert (serializeMeeting m = m) as ->.
  { unfold serializeMeeting. now rewrite Ht, Hp. }
  assert (not_null m = true) as ->.
  { clear IH. destruct m; cbn in Ht |- *; congruence. }
  now rewrite IH.
Qed.

(** End to end: on a miss, with every page served and every item a plain
    object, [GET /api/meetings] answers 200 with exactly the upstream's
    items, page after page, and the slot holds that same list. *)
Theorem meetings_are_served_in_upstream_order
    (apiKey : option string) (now : Z) (s : server)
    (pages : list value) (last : value) (lists : list (list value))
    (script : list exchange) :
  key_set apiKey = true ->
  cache_get s now = None ->
  map outcome script = map HttpOk (pages ++ [last]) ->
  Forall2 page_lists (pages ++ [last]) lists ->
  Forall leads_on pages ->
  ends_chain last ->
  Forall (Forall plain_record) lists ->
  exists h,
    meetings_handler apiKey now script s = Some h
    /\ reply h = mkResponse 200 (VObj [("items", VArr (List.concat lists))])
    /\ meetingsCache (after h) = Some (List.concat lists).
Proof.
  intros Hkey Hmiss Hs Hl Hc Hlast Hplain.
  rewrite map_app in Hs. apply map_eq_app in Hs.
  destruct Hs as (front & back & -> & Hfront & Hback).
  destruct back as [|x [|? ?]]; try discriminate.
  cbn in Hback. injection Hback as Hx.
  pose proof Hl as Hl0.
  apply Forall2_app_inv_l in Hl.
  destruct Hl as (lists1 & lists2 & Hl1 & Hl2 & ->).
  inversion Hl2 as [|? l ? ? Hp Hnil]; subst. inversion Hnil; subst.
  destruct (pages_are_read pages lists1 Hl1 Hc) as [Hl1' Hc'].
  destruct (drain_loop_pages pages lists1 front initial Hfront Hl1' Hc' eq_refl)
    as (st' & Hrun & Hall & _ & _ & _).
  rewrite (meetings_handler_miss _ _ _ _ Hmiss). cbv zeta.
  unfold fetchAllMeetings. rewrite Hkey, Hrun.
  rewrite (drain_loop_last_page x [] st' last l Hx (page_lists_items_of _ _ Hp)
             (ends_chain_no_cursor last (proj1 Hp) Hlast)).
  cbn [fst returned allMeetings]. rewrite Hall. cbn [allMeetings initial app].
  assert (serializeAll (List.concat lists1 ++ l) = List.concat (lists1 ++ [l])) as ->.
  { rewrite concat_app. cbn [List.concat]. rewrite app_nil_r.
    apply serializeAll_plain.
    apply Forall_app in Hplain. destruct Hplain as [Hp1 Hp2].
    inversion Hp2 as [|? ? Hpl _]; subst.
    apply Forall_app. split; [now apply Forall_concat|exact Hpl]. }
  eexists. split; [reflexivity|]. split; reflexivity.
Qed.

Lemma meetings_are_served_in_upstream_order_witness :
  exists h,
    meetings_handler (Some "key") 1700000000000
      [served record_page_1; served record_page_2] cold = Some h
    /\ reply h
       = mkResponse 200
           (VObj [("items",
                   VArr (List.concat [[a_record 1; a_record 2]; [a_record 3]]))])
    /\ meetingsCache (after h)
       = Some (List.concat [[a_record 1; a_record 2]; [a_record 3]]).
Proof.
  apply (meetings_are_served_in_upstream_order (Some "key") 1700000000000 cold
           [record_page_1] record_page_2
           [[a_record 1; a_record 2]; [a_record 3]]
           [served record_page_1; served record_page_2]).
  - reflexivity.
  - reflexivity.
  - reflexivity.
  - repeat constructor.
  - repeat constructor. now eexists.
  - reflexivity.
  - repeat constructor.
Defined.

(** A second [GET /api/meetings] that comes within the five minutes of
    the first gets the same body from the slot: no request is made,
    whatever the upstream would answer and even if the credential has
    gone, and the slot keeps the first timestamp. *)
Theorem second_call_within_ttl_is_served_from_cache
    (apiKey apiKey' : option string) (now now' : Z)
    (script script' : list exchange) (s : server) (meetings : list value) :
  cache_get s now = None ->
  returned (fst (fetchAllMeetings apiKey script)) = Some (Ok meetings) ->
  now <> 0 ->
  now' - now < CACHE_TTL ->
  exists h,
    meetings_handler apiKey now script s = Some h
    /\ meetings_handler apiKey' now' script' (after h)
       = Some (mkHandled (reply h) (after h) None now').
Proof.
  intros Hmiss Hret Hclock Hfresh.
  rewrite (meetings_handler_miss _ _ _ _ Hmiss). cbv zeta. rewrite Hret.
  eexists. split; [reflexivity|]. cbn [after reply].
  apply meetings_handler_hit. rewrite cache_get_set.
  apply Z.eqb_neq in Hclock. apply Z.ltb_lt in Hfresh.
  now rewrite Hclock, Hfresh.
Qed.

Lemma second_call_within_ttl_is_served_from_cache_witness :
  exists h,
    meetings_handler (Some "key") 1700000000000
      [served demo_page_1; served demo_page_2] cold = Some h
    /\ meetings_handler None 1700000001000 [broken] (after h)
       = Some (mkHandled (reply h) (after h) None 1700000001000).
Proof.
  apply (second_call_within_ttl_is_served_from_cache (Some "key") None
           1700000000000 1700000001000
           [served demo_page_1; served demo_page_2] [broken] cold
           [VNum 1; VNum 2; VNum 3]).
  - reflexivity.
  - reflexivity.
  - discriminate.
  - reflexivity.
Defined.

(** A page request that fails for good ends [GET /api/meetings] with an
    error reply and nothing else: the code is the upstream's HTTP status
    when the upstream answered with one (500 after a network failure),
    the body carries the error message and no item of the pages read
    before, and the slot is left as it was. *)
Theorem failed_drain_relays_status_and_keeps_cache
    (apiKey : option string) (now : Z) (s : server)
    (pre : list exchange) (st : loop_state) (x : exchange)
    (rest : list exchange) (e : error) :
  key_set apiKey = true ->
  cache_get s now = None ->
  fetchAllMeetings apiKey pre = (Pending st, []) ->
  fathomResponse (outcome x) = Throw e ->
  is_rate_limit e = false ->
  exists h,
    meetings_handler apiKey now (pre ++ x :: rest) s = Some h
    /\ reply h = mkResponse (error_code e) (failed_body e)
    /\ after h = s
    /\ (forall code statusText body,
          outcome x = HttpNotOk code statusText body -> code <> 0 ->
          error_code e = code)
    /\ (forall msg, outcome x = FetchRejects msg -> error_code e = 500).
Proof.
  intros Hkey Hmiss Hpre Hx Hhard.
  rewrite (meetings_handler_miss _ _ _ _ Hmiss). cbv zeta.
  unfold fetchAllMeetings in *. rewrite Hkey in *.
  rewrite (drain_loop_pending pre initial st _ Hpre).
  cbn [drain_loop]. unfold loop_turn. rewrite Hx. cbn [bind].
  unfold on_error, catch_block. rewrite Hhard. cbn [fst returned].
  eexists. split; [reflexivity|]. cbn [reply after].
  split; [reflexivity|]. split; [reflexivity|]. split.
  - intros code statusText body Ho Hcode. rewrite Ho in Hx.
    cbn in Hx. injection Hx as <-. unfold error_code. cbn [status].
    apply Z.eqb_neq in Hcode. now rewrite Hcode.
  - intros msg Ho. rewrite Ho in Hx. cbn in Hx.
    destruct (negb (msg =? "")%string && negb (includes "Fathom API error" msg));
      injection Hx as <-; reflexivity.
Qed.

Lemma failed_drain_relays_status_and_keeps_cache_witness :
  exists h,
    meetings_handler (Some "key") 1700000000000
      ([served demo_page_1] ++ unauthorized :: [served demo_page_2]) cold = Some h
    /\ reply h
       = mkResponse 401
           (VObj [("error", VStr "Failed to fetch meetings");
                  ("message", VStr "Fathom API error: 401 Unauthorized. bad key")])
    /\ after h = cold.
Proof.
  destruct (failed_drain_relays_status_and_keeps_cache (Some "key") 1700000000000
              cold [served demo_page_1]
              (mkLoop [VNum 1; VNum 2] 0 (Some (VStr "c1"))
                 [Request None 120; Wait 500])
              unauthorized [served demo_page_2]
              (mkError (Some 401) (Some 401)
                 "Fathom API error: 401 Unauthorized. bad key")
              eq_refl eq_refl eq_refl eq_refl eq_refl)
    as (h & Hh & Hreply & Hafter & Hcode & _).
  exists h. split; [exact Hh|]. split; [|exact Hafter].
  rewrite Hreply. rewrite (Hcode 401 "Unauthorized" "bad key" eq_refl); [reflexivity|].
  discriminate.
Defined.

(** Without a credential nothing is asked of the upstream: the drain
    throws at once, [GET /api/meetings] answers 500 on a miss and leaves
    the slot alone, the transcript handler answers 500 for a valid id;
    a fresh slot is still served. *)
Theorem missing_credential_makes_no_request
    (apiKey : option string) (now : Z) (script : list exchange) (s : server)
    (meetingId : string) (o : fetch_outcome) :
  key_set apiKey = false ->
  fetchAllMeetings apiKey script = (Threw missing_key_error initial, script)
  /\ (cache_get s now = None ->
      meetings_handler apiKey now script s
      = Some (mkHandled (mkResponse 500 (failed_body missing_key_error)) s
                (Some (Threw missing_key_error initial)) now))
  /\ (forall records, cache_get s now = Some records ->
      meetings_handler apiKey now script s
      = Some (mkHandled (mkResponse 200 (VObj [("items", VArr records)])) s None now))
  /\ (numeric_start meetingId = true ->
      transcript_handler apiKey meetingId o
      = (mkResponse 500
           (VObj [("error", VStr "Failed to fetch transcript");
                  ("message", VStr "FATHOM_API_KEY is not set")]), [])).
Proof.
  intros Hkey. split; [|split; [|split]].
  - unfold fetchAllMeetings. now rewrite Hkey.
  - intros Hmiss. rewrite (meetings_handler_miss _ _ _ _ Hmiss). cbv zeta.
    unfold fetchAllMeetings. rewrite Hkey. cbn. now rewrite Z.add_0_r.
  - intros records Hhit. now apply meetings_handler_hit.
  - intros Hid. unfold transcript_handler, fathomRequest.
    now rewrite parseInt_NaN, Hid, Hkey.
Qed.

Lemma missing_credential_makes_no_request_witness :
  fetchAllMeetings None [served demo_page_1]
    = (Threw missing_key_error initial, [served demo_page_1])
  /\ meetings_handler (Some "") 1700000000000 [served demo_page_1] cold
     = Some (mkHandled (mkResponse 500 (failed_body missing_key_error)) cold
               (Some (Threw missing_key_error initial)) 1700000000000)
  /\ transcript_handler None "42" hello
     = (mkResponse 500
          (VObj [("error", VStr "Failed to fetch transcript");
                 ("message", VStr "FATHOM_API_KEY is not set")]), []).
Proof.
  destruct (missing_credential_makes_no_request None 1700000000000
              [served demo_page_1] cold "42" hello eq_refl) as (Hdrain & _ & _ & Ht).
  destruct (missing_credential_makes_no_request (Some "") 1700000000000
              [served demo_page_1] cold "42" hello eq_refl) as (_ & Hmiss & _).
  split; [exact Hdrain|]. split; [apply Hmiss; reflexivity|].
  apply Ht. reflexivity.
Defined.

(** After [POST /api/cache/clear] the next [GET /api/meetings] drains the
    upstream at whatever time it comes, also right after a fill: when it
    replies it has run the drain, a returned list is normalized, served
    and stored under the time of this call, and a failed drain leaves the
    slot empty. *)
Theorem clear_forces_a_fresh_drain (apiKey : option string) (now : Z)
    (script : list exchange) (h : handled) :
  meetings_handler apiKey now script cache_clear = Some h ->
  drained h = Some (fst (fetchAllMeetings apiKey script))
  /\ match returned (fst (fetchAllMeetings apiKey script)) with
     | Some (Ok meetings) =>
         reply h = mkResponse 200 (VObj [("items", VArr (serializeAll meetings))])
         /\ cache_get (after h) now
            = if now =? 0 then None else Some (serializeAll meetings)
     | _ => forall later, cache_get (after h) later = None
     end.
Proof.
  rewrite (meetings_handler_miss apiKey now script cache_clear (cache_get_after_clear now)).
  cbv zeta. destruct (returned (fst (fetchAllMeetings apiKey script))) as [[meetings|e]|];
    [| |discriminate]; intros [= <-]; cbn [drained reply after].
  - split; [reflexivity|]. split; [reflexivity|].
    rewrite cache_get_set, Z.sub_diag. destruct (now =? 0); reflexivity.
  - split; [reflexivity|]. intros later. apply cache_get_after_clear.
Qed.

Lemma clear_forces_a_fresh_drain_witness :
  exists h,
    meetings_handler (Some "key") 1700000000000 [served record_page_2] cache_clear
    = Some h
    /\ drained h = Some (fst (fetchAllMeetings (Some "key") [served record_page_2])).
Proof.
  eexists. split; [vm_compute; reflexivity|].
  refine (proj1 (clear_forces_a_fresh_drain (Some "key") 1700000000000
                   [served record_page_2] _ _)).
  vm_compute. reflexivity.
Defined.

(* ===================================================================== *)
(** ** Normalization applied twice *)
(* ===================================================================== *)

Lemma json_copy_array (l : list value) :
  json_copy (VArr l) = (l' <- copy_elems l ;; Ok (Some (VArr l'))).
Proof. reflexivity. Qed.

Lemma json_copy_object (ms : list (string * value)) :
  json_copy (VObj ms) = (ms' <- copy_members ms ;; Ok (Some (VObj ms'))).
Proof. reflexivity. Qed.

(** A value that came out of the JSON round trip goes through it
    unchanged. *)
Lemma json_copy_fixed (v : value) :
  forall c, json_copy v = Ok (Some c) -> json_copy c = Ok (Some c).
Proof.
  induction v using value_nested_ind; intros c Hc;
    try (cbn in Hc; injection Hc as <-; reflexivity); try discriminate.
  - rewrite json_copy_array in Hc.
    destruct (copy_elems l) as [l'|e] eqn:Hl; [|discriminate].
    cbn in Hc. injection Hc as <-. rewrite json_copy_array.
    assert (copy_elems l' = Ok l') as ->; [|reflexivity].
    revert l' Hl. induction H as [|x l Hx _ IH]; intros l' Hl.
    + cbn in Hl. now injection Hl as <-.
    + cbn [copy_elems] in Hl.
      destruct (json_copy x) as [x'|e] eqn:Hjx; [|discriminate].
      destruct (copy_elems l) as [rest'|e] eqn:Hrest; [|discriminate].
      cbn in Hl. injection Hl as <-. cbn [copy_elems].
      rewrite (IH rest' eq_refl).
      destruct x' as [y|]; [rewrite (Hx y eq_refl)|]; reflexivity.
  - rewrite json_copy_object in Hc.
    destruct (copy_members ms) as [ms'|e] eqn:Hms; [|discriminate].
    cbn in Hc. injection Hc as <-. rewrite json_copy_object.
    assert (copy_members ms' = Ok ms') as ->; [|reflexivity].
    revert ms' Hms. induction H as [|[k x] ms Hx _ IH]; intros ms' Hms.
    + cbn in Hms. now injection Hms as <-.
    + cbn [copy_members] in Hms. cbn [snd] in Hx.
      destruct (json_copy x) as [x'|e] eqn:Hjx; [|discriminate].
      destruct (copy_members ms) as [rest'|e] eqn:Hrest; [|discriminate].
      cbn in Hms. destruct x' as [y|]; injection Hms as <-.
      * cbn [copy_members]. now rewrite (Hx y eq_refl), (IH rest' eq_refl).
      * now apply IH.
Qed.

Lemma json_copy_truthy (v c : value) :
  truthy v = true -> json_copy v = Ok (Some c) -> truthy c = true.
Proof.
  intros Ht Hc. destruct v; try (cbn in Hc; injection Hc as <-; exact Ht);
    try discriminate.
  - rewrite json_copy_array in Hc. destruct (copy_elems elems); [|discriminate].
    cbn in Hc. now injection Hc as <-.
  - rewrite json_copy_object in Hc. destruct (copy_members members); [|discriminate].
    cbn in Hc. now injection Hc as <-.
Qed.

Lemma serializeMeeting_twice (meeting : value) :
  serializeMeeting (serializeMeeting meeting) = serializeMeeting meeting
  /\ (truthy meeting = true -> truthy (serializeMeeting meeting) = true).
Proof.
  unfold serializeMeeting at 2 3 4.
  destruct (truthy meeting) eqn:Ht; cbn [negb]; [|split; [reflexivity|discriminate]].
  destruct (is_plain meeting) eqn:Hp.
  - split; [|auto]. unfold serializeMeeting. now rewrite Ht, Hp.
  - unfold json_roundtrip.
    destruct (json_copy meeting) as [[c|]|e] eqn:Hc; cbn [bind].
    + pose proof (json_copy_truthy meeting c Ht Hc) as Htc.
      split; [|auto]. unfold serializeMeeting. rewrite Htc. cbn [negb].
      destruct (is_plain c); [reflexivity|].
      unfold json_roundtrip. now rewrite (json_copy_fixed meeting c Hc).
    + split; reflexivity.
    + split; reflexivity.
Qed.

(** Normalizing is idempotent: a record that went through
    [serializeMeeting] comes back from it unchanged, and the list served
    by [GET /api/meetings] is a fixed point of the normalization. *)
Theorem normalization_is_idempotent (meeting : value) (meetings : list value) :
  serializeMeeting (serializeMeeting meeting) = serializeMeeting meeting
  /\ serializeAll (serializeAll meetings) = serializeAll meetings.
Proof.
  split; [apply serializeMeeting_twice|].
  rewrite (serializeAll_truthy (serializeAll meetings)).
  rewrite (serializeAll_truthy meetings).
  induction meetings as [|m meetings IH]; [reflexivity|].
  cbn [filter]. destruct (truthy m) eqn:Hm; [|exact IH].
  cbn [map filter]. destruct (serializeMeeting_twice m) as (Hidem & Htruthy).
  rewrite (Htruthy Hm). cbn [map]. now rewrite Hidem, IH.
Qed.

(* ===================================================================== *)
(** ** The transcript route and the health report *)
(* ===================================================================== *)

(** The reply of the transcript handler is always one of 200, 400, 404
    and 500; it makes at most one upstream request; and a 200 always
    carries a truthy transcript that an upstream answer with [ok] status
    brought. *)
Theorem transcript_reply_codes
    (apiKey : option string) (meetingId : string) (o : fetch_outcome) :
  In (code (fst (transcript_handler apiKey meetingId o))) [200; 400; 404; 500]
  /\ (List.length (snd (transcript_handler apiKey meetingId o)) <= 1)%nat
  /\ (code (fst (transcript_handler apiKey meetingId o)) = 200 ->
      exists payload transcript,
        o = HttpOk payload
        /\ extract_transcript payload = Ok transcript
        /\ truthy transcript = true
        /\ body (fst (transcript_handler apiKey meetingId o))
           = VObj [("transcript", transcript)]).
Proof.
  unfold transcript_handler. set (recordingId := parseInt meetingId).
  destruct (isNaN recordingId); cbn [fst snd code].
  { split; [cbn; auto|]. split; [cbn; lia|discriminate]. }
  assert (List.length (if key_set apiKey then [recordingId] else []) <= 1)%nat as Hone.
  { destruct (key_set apiKey); cbn; lia. }
  unfold fathomRequest. destruct (key_set apiKey) eqn:Hkey.
  - destruct (fathomResponse o) as [payload|e] eqn:Ho; cbn [bind].
    + assert (o = HttpOk payload) as ->.
      { destruct o; cbn in Ho; try discriminate; [|congruence].
        destruct (negb (msg =? "")%string && negb (includes "Fathom API error" msg));
          discriminate. }
      destruct (extract_transcript payload) as [t|e] eqn:Ht.
      * destruct (truthy t) eqn:Htt; cbn [negb fst snd code body].
        -- split; [cbn; auto|]. split; [exact Hone|]. intros _.
           now exists payload, t.
        -- split; [cbn; auto|]. split; [exact Hone|discriminate].
      * destruct (is_404 e); cbn [fst snd code];
          (split; [cbn; auto|]; split; [exact Hone|discriminate]).
    + destruct (is_404 e); cbn [fst snd code];
        (split; [cbn; auto|]; split; [exact Hone|discriminate]).
  - cbn [bind]. destruct (is_404 missing_key_error); cbn [fst snd code];
      (split; [cbn; auto|]; split; [exact Hone|discriminate]).
Qed.

Lemma transcript_reply_codes_witness :
  exists payload transcript,
    HttpOk (VObj [("transcript", VStr "hello")]) = HttpOk payload
    /\ extract_transcript payload = Ok transcript
    /\ truthy transcript = true
    /\ body (fst (transcript_handler (Some "key") "42"
                    (HttpOk (VObj [("transcript", VStr "hello")]))))
       = VObj [("transcript", transcript)].
Proof.
  apply (transcript_reply_codes (Some "key") "42"
           (HttpOk (VObj [("transcript", VStr "hello")]))).
  reflexivity.
Defined.

(** An upstream failure other than 404 is answered 500 with the error
    message, whatever the upstream's status: the transcript handler
    relays no status and retries nothing, not even a 429. *)
Theorem transcript_upstream_failure_is_500
    (apiKey : option string) (meetingId : string)
    (st : Z) (statusText errorBody : string) :
  key_set apiKey = true ->
  numeric_start meetingId = true ->
  st <> 404 ->
  transcript_handler apiKey meetingId (HttpNotOk st statusText errorBody)
  = (mkResponse 500
       (VObj [("error", VStr "Failed to fetch transcript");
              ("message",
               VStr ("Fathom API error: " ++ string_of_Z st ++ " " ++ statusText
                       ++ ". " ++ errorBody)%string)]),
     [parseInt meetingId]).
Proof.
  intros Hkey Hid Hst. unfold transcript_handler, fathomRequest.
  rewrite parseInt_NaN, Hid, Hkey. cbn [negb fathomResponse bind].
  unfold is_404. cbn [status statusCode].
  apply Z.eqb_neq in Hst. rewrite Hst. reflexivity.
Qed.

Lemma transcript_upstream_failure_is_500_witness :
  transcript_handler (Some "key") "42" (HttpNotOk 429 "Too Many Requests" "slow down")
  = (mkResponse 500
       (VObj [("error", VStr "Failed to fetch transcript");
              ("message",
               VStr ("Fathom API error: " ++ string_of_Z 429 ++ " " ++ "Too Many Requests"
                       ++ ". " ++ "slow down")%string)]),
     [parseInt "42"]).
Proof.
  apply (transcript_upstream_failure_is_500 (Some "key") "42" 429
           "Too Many Requests" "slow down"); [reflexivity|reflexivity|discriminate].
Defined.

(** What [GET /api/health] says of a populated slot: [hasCache] is true
    and [cacheSize] is the number of records whether or not the slot is
    still fresh, and the slot is served by [GET /api/meetings] exactly
    when the [cacheAge] reported (whole seconds) is below 300. *)
Theorem health_reports_slot_and_freshness
    (records : list value) (t now : Z) :
  t <> 0 ->
  health_cache (mkServer (Some records) (Some t)) now
  = VObj [("hasCache", VBool true);
          ("cacheSize", VNum (Z.of_nat (List.length records)));
          ("cacheAge", VNum ((now - t) / 1000))]
  /\ (cache_get (mkServer (Some records) (Some t)) now = Some records
      <-> (now - t) / 1000 < 300)
  /\ (cache_get (mkServer (Some records) (Some t)) now = None
      <-> 300 <= (now - t) / 1000).
Proof.
  intros Ht. apply Z.eqb_neq in Ht.
  unfold health_cache, cache_get. cbn [meetingsCache cacheTimestamp].
  rewrite Ht. cbn [negb andb]. split; [reflexivity|].
  assert ((now - t) / 1000 < 300 <-> now - t < CACHE_TTL) as Hage.
  { unfold CACHE_TTL.
    pose proof (Z.div_mod (now - t) 1000 ltac:(lia)).
    pose proof (Z.mod_pos_bound (now - t) 1000 ltac:(lia)). lia. }
  destruct (now - t <? CACHE_TTL) eqn:E.
  - apply Z.ltb_lt in E. split; split; intros; try reflexivity; try discriminate; lia.
  - apply Z.ltb_ge in E. split; split; intros; try reflexivity; try discriminate; lia.
Qed.

Lemma health_reports_slot_and_freshness_witness :
  health_cache (mkServer (Some [VNum 1; VNum 2]) (Some 1700000000000)) 1700000299999
  = VObj [("hasCache", VBool true);
          ("cacheSize", VNum (Z.of_nat (List.length [VNum 1; VNum 2])));
          ("cacheAge", VNum ((1700000299999 - 1700000000000) / 1000))]
  /\ cache_get (mkServer (Some [VNum 1; VNum 2]) (Some 1700000000000)) 1700000299999
     = Some [VNum 1; VNum 2]
  /\ cache_get (mkServer (Some [VNum 1; VNum 2]) (Some 1700000000000)) 1700000300000
     = None.
Proof.
  destruct (health_reports_slot_and_freshness [VNum 1; VNum 2]
              1700000000000 1700000299999) as (Hreport & Hfresh & _);
    [discriminate|].
  destruct (health_reports_slot_and_freshness [VNum 1; VNum 2]
              1700000000000 1700000300000) as (_ & _ & Hstale);
    [discriminate|].
  split; [exact Hreport|]. split; [apply Hfresh; reflexivity|].
  apply Hstale. discriminate.
Defined.

(* ===================================================================== *)
(** ** The SDK-based server: a refused call *)
(* ===================================================================== *)

Lemma sdk_loop_refused (refusals : list Sdk.sdk_call) :
  forall (tail : list Sdk.sdk_call) (st : Sdk.loop_state) (l : list value),
    sdk_items_of (Sdk.response st, Sdk.pager st) = Ok l ->
    sdk_advances (Sdk.response st, Sdk.pager st) ->
    Forall sdk_refused refusals ->
    0 <= Sdk.retryCount st ->
    Sdk.retryCount st + Z.of_nat (List.length refusals) <= maxRetries ->
    exists st',
      Sdk.loop (refusals ++ tail) st = Sdk.loop tail st'
      /\ Sdk.allMeetings st'
         = Sdk.allMeetings st ++ copies (List.length refusals) l
      /\ Sdk.response st' = Sdk.response st
      /\ Sdk.pager st' = Sdk.pager st.
Proof.
  induction refusals as [|x refusals IH]; intros tail st l Hl Hadv Hf Hge Hle.
  - exists st. cbn. now rewrite app_nil_r.
  - inversion Hf as [|? ? (e & Hx & He) Hf']; subst.
    destruct (sdk_try_until_call_advances st l Hl Hadv) as (via & cur' & Htry).
    cbn [List.length] in Hle. rewrite Nat2Z.inj_succ in Hle.
    cbn [app Sdk.loop]. rewrite Htry, Hx.
    cbn [Sdk.retryCount Sdk.allMeetings Sdk.response Sdk.pager Sdk.cursorParam
         Sdk.trace].
    unfold catch_block. rewrite He.
    assert ((Sdk.retryCount st + 1 <=? maxRetries) = true) as ->
      by (apply Z.leb_le; lia).
    cbv zeta.
    match goal with
    | |- exists _, Sdk.loop _ ?s1 = _ /\ _ =>
        destruct (IH tail s1 l) as (st' & -> & Hall & Hresp & Hpag)
    end; cbn [Sdk.retryCount Sdk.allMeetings Sdk.response Sdk.pager]; auto; try lia.
    exists st'. split; [reflexivity|]. split; [|split; assumption].
    rewrite Hall. cbn [Sdk.allMeetings copies List.length].
    now rewrite <- app_assoc.
Qed.

(** In the SDK-based server a page is pushed once for every attempt at
    the call that follows it: when that call is refused [k] times (five
    at most) before the pagination closes, the list returned holds the
    items of the page [k + 1] times. *)
Theorem sdk_refused_call_repeats_the_held_page
    (first : Sdk.sdk_call) (p : page) (l : list value)
    (refusals : list Sdk.sdk_call) (closing : Sdk.sdk_call)
    (r : value) (pg : bool) :
  sdk_serves p first ->
  truthy (fst p) = true ->
  sdk_page_lists p l ->
  sdk_advances p ->
  Forall sdk_refused refusals ->
  (List.length refusals <= 5)%nat ->
  Sdk.answer closing = Sdk.Resolves r pg ->
  nullish r = true ->
  exists st,
    Sdk.fetchAllMeetings (first :: refusals ++ [closing]) = (Sdk.Finished st, [])
    /\ Sdk.returned (Sdk.Finished st)
       = Some (Ok (copies (S (List.length refusals)) l)).
Proof.
  intros Hfirst Htruthy Hl Hadv Hrefused Hlen Hclosing Hnull.
  apply sdk_page_lists_items_of in Hl.
  unfold sdk_serves in Hfirst. cbn [Sdk.fetchAllMeetings].
  rewrite Hfirst, Htruthy. destruct p as [c cp]. cbn [fst snd] in *.
  destruct (sdk_loop_refused refusals [closing]
              (Sdk.mkLoop [] 0 c cp None [Sdk.ListMeetings None (Sdk.took first)]) l)
    as (st' & -> & Hall & Hresp & Hpag); cbn [Sdk.response Sdk.pager Sdk.retryCount];
    auto; try (unfold maxRetries; lia).
  destruct (sdk_loop_closes (c, cp) l [closing] st') as (st'' & Hrun & Hall'');
    cbn [fst snd]; auto.
  { right. split; [exact Hadv|]. now exists closing, r, pg. }
  exists st''. split; [exact Hrun|]. cbn [Sdk.returned].
  rewrite Hall'', Hall. cbn [Sdk.allMeetings app copies].
  f_equal. f_equal. clear.
  induction (List.length refusals) as [|n IH]; cbn [copies].
  - now rewrite app_nil_r.
  - now rewrite <- app_assoc, IH.
Qed.

Lemma sdk_refused_call_repeats_the_held_page_witness :
  exists st,
    Sdk.fetchAllMeetings
      (sdk_served sdk_page_1 :: [sdk_too_many; sdk_too_many] ++ [sdk_no_more])
    = (Sdk.Finished st, [])
    /\ Sdk.returned (Sdk.Finished st)
       = Some (Ok (copies (S (List.length [sdk_too_many; sdk_too_many]))
                     [VNum 1; VNum 2])).
Proof.
  apply (sdk_refused_call_repeats_the_held_page (sdk_served sdk_page_1) sdk_page_1
           [VNum 1; VNum 2] [sdk_too_many; sdk_too_many] sdk_no_more VNull false).
  - reflexivity.
  - reflexivity.
  - reflexivity.
  - now left.
  - repeat constructor; eexists; split; reflexivity.
  - cbn. lia.
  - reflexivity.
  - reflexivity.
Defined.

(* ===================================================================== *)
(** ** The filter parameters *)
(* ===================================================================== *)

Lemma split_commas_length (l : list ascii) :
  List.length (split_commas l) = S (commas l).
Proof.
  induction l as [|c l IH]; [reflexivity|].
  cbn [split_commas commas]. destruct (Ascii.eqb c ","); cbn [List.length].
  - now rewrite IH.
  - destruct (split_commas l); cbn [List.length] in *; lia.
Qed.

Lemma concat_app (a b : list string) :
  String.concat "" (a ++ b) = (String.concat "" a ++ String.concat "" b)%string.
Proof.
  induction a as [|x a IH]; [reflexivity|].
  cbn [app]. rewrite !concat_cons, IH.
  induction x as [|c x IHx]; cbn [String.append]; [reflexivity|]. now rewrite IHx.
Qed.

Lemma length_append (a b : string) :
  String.length (a ++ b) = (String.length a + String.length b)%nat.
Proof. induction a as [|c a IH]; cbn; [reflexivity|]. now rewrite IH. Qed.

Lemma utf8_width_bounds (a : ascii) : (1 <= utf8_width a <= 4)%nat.
Proof.
  unfold utf8_width.
  destruct (nat_of_ascii a <? 192)%nat; [lia|].
  destruct (nat_of_ascii a <? 224)%nat; [lia|].
  destruct (nat_of_ascii a <? 240)%nat; lia.
Qed.

Lemma code_points_piece (cp t : string) :
  piece_fits cp (String.length t) ->
  code_points (cp ++ t) = cp :: code_points t.
Proof.
  destruct cp as [|a r]; [contradiction|]. cbn [piece_fits String.length].
  pose proof (utf8_width_bounds a) as Hw.
  intros [Hwhole|[-> Hshort]]; cbn [String.append code_points].
  - destruct (utf8_width a) as [|[|[|[|[|w]]]]]; try lia.
    + destruct r; [reflexivity|discriminate].
    + destruct r as [|b [|c r]]; try discriminate. reflexivity.
    + destruct r as [|b [|c [|d r]]]; try discriminate. reflexivity.
    + destruct r as [|b [|c [|d [|e r]]]]; try discriminate. reflexivity.
  - destruct (utf8_width a) as [|[|[|[|[|w]]]]]; try lia.
    + destruct t; [reflexivity|cbn in Hshort; lia].
    + destruct t as [|b [|c t]]; try reflexivity. cbn in Hshort. lia.
    + destruct t as [|b [|c [|d t]]]; try reflexivity. cbn in Hshort. lia.
Qed.

Lemma code_points_concat (l : list string) :
  well_cut l -> code_points (String.concat "" l) = l.
Proof.
  induction l as [|cp l IH]; [reflexivity|]. intros [Hcp Hl].
  rewrite concat_cons, (code_points_piece _ _ Hcp). now rewrite IH.
Qed.

Lemma code_points_well_cut_bounded (n : nat) :
  forall s, (String.length s <= n)%nat -> well_cut (code_points s).
Proof.
  induction n as [|n IH]; intros s Hn.
  - destruct s; [exact I|cbn in Hn; lia].
  - destruct s as [|a r]; [exact I|]. cbn [String.length] in Hn.
    pose proof (utf8_width_bounds a) as Hw.
    assert (forall t, (String.length t <= n)%nat ->
              String.length (String.concat "" (code_points t)) = String.length t)
      as Hlen by (intros t _; now rewrite concat_code_points).
    cbn [code_points].
    destruct (utf8_width a) as [|[|[|[|[|w]]]]] eqn:Ea; try lia.
    + cbn [well_cut piece_fits String.length]. rewrite Ea.
      split; [now left|]. apply IH. lia.
    + destruct r as [|b t].
      * cbn [well_cut piece_fits code_points String.concat String.length].
        rewrite Ea. split; [right; split; [reflexivity|lia]|exact I].
      * cbn [well_cut piece_fits String.length]. rewrite Ea.
        split; [now left|]. apply IH. cbn in Hn. lia.
    + destruct r as [|b [|c t]].
      * cbn [well_cut piece_fits code_points String.concat String.length].
        rewrite Ea. split; [right; split; [reflexivity|lia]|exact I].
      * change (well_cut (String a "" :: code_points (String b ""))).
        cbn [well_cut piece_fits]. rewrite Ea, Hlen by (cbn in *; lia).
        split; [right; split; [reflexivity|cbn; lia]|]. apply IH. cbn in *. lia.
      * cbn [well_cut piece_fits String.length]. rewrite Ea.
        split; [now left|]. apply IH. cbn in Hn. lia.
    + destruct r as [|b [|c [|d t]]].
      * cbn [well_cut piece_fits code_points String.concat String.length].
        rewrite Ea. split; [right; split; [reflexivity|lia]|exact I].
      * change (well_cut (String a "" :: code_points (String b ""))).
        cbn [well_cut piece_fits]. rewrite Ea, Hlen by (cbn in *; lia).
        split; [right; split; [reflexivity|cbn; lia]|]. apply IH. cbn in *. lia.
      * change (well_cut (String a "" :: code_points (String b (String c "")))).
        cbn [well_cut piece_fits]. rewrite Ea, Hlen by (cbn in *; lia).
        split; [right; split; [reflexivity|cbn; lia]|]. apply IH. cbn in *. lia.
      * cbn [well_cut piece_fits String.length]. rewrite Ea.
        split; [now left|]. apply IH. cbn in Hn. lia.
Qed.

Lemma code_points_well_cut (s : string) : well_cut (code_points s).
Proof. now apply (code_points_well_cut_bounded (String.length s)). Qed.

Lemma well_cut_suffix (a b : list string) : well_cut (a ++ b) -> well_cut b.
Proof. induction a as [|x a IH]; [auto|]. intros [_ H]. now apply IH. Qed.

Lemma well_cut_prefix (a b : list string) : well_cut (a ++ b) -> well_cut a.
Proof.
  induction a as [|x a IH]; [intros _; exact I|]. cbn [app well_cut].
  intros [Hx H]. split; [|now apply IH].
  rewrite concat_app, length_append in Hx.
  destruct x as [|c r]; [contradiction|]. cbn [piece_fits] in *.
  destruct Hx as [Hx|[-> Hx]]; [now left|right; split; [reflexivity|lia]].
Qed.

Lemma drop_white_suffix (l : list string) : exists skipped, l = skipped ++ drop_white l.
Proof.
  induction l as [|cp l (skipped & IH)]; [now exists []|]. cbn [drop_white].
  destruct (is_white_space cp).
  - exists (cp :: skipped). cbn [app]. now rewrite <- IH.
  - now exists [].
Qed.

Lemma drop_white_head (l : list string) :
  match drop_white l with
  | [] => True
  | cp :: _ => is_white_space cp = false
  end.
Proof.
  induction l as [|cp l IH]; [exact I|]. cbn [drop_white].
  destruct (is_white_space cp) eqn:E; [exact IH|exact E].
Qed.

(** What [trim] returns neither starts nor ends with white space. *)
Lemma trim_trimmed (s : string) : trimmed (trim s).
Proof.
  unfold trimmed, trim.
  set (kept := drop_white (code_points s)).
  destruct (drop_white_suffix (code_points s)) as (skipped & Hcut).
  fold kept in Hcut.
  destruct (drop_white_suffix (rev kept)) as (skipped' & Hcut').
  assert (kept = rev (drop_white (rev kept)) ++ rev skipped') as Hkept.
  { rewrite <- rev_app_distr, <- Hcut'. now rewrite rev_involutive. }
  assert (well_cut (rev (drop_white (rev kept)))) as Hwell.
  { apply (well_cut_prefix _ (rev skipped')). rewrite <- Hkept.
    apply (well_cut_suffix skipped). rewrite <- Hcut. apply code_points_well_cut. }
  rewrite (code_points_concat _ Hwell). split.
  - pose proof (drop_white_head (code_points s)) as Hhead. fold kept in Hhead.
    destruct (rev (drop_white (rev kept))) as [|cp rest]; [exact I|].
    rewrite Hkept in Hhead. exact Hhead.
  - rewrite rev_involutive. apply drop_white_head.
Qed.

Lemma env_values_length (v : option string) :
  List.length (env_values v) = pieces v.
Proof.
  destruct v as [s|]; [|reflexivity]. unfold env_values, pieces.
  destruct (String.eqb s ""); [reflexivity|].
  now rewrite length_map, split_commas_length.
Qed.

Lemma env_values_trimmed (v : option string) : Forall trimmed (env_values v).
Proof.
  destruct v as [s|]; [|constructor]. unfold env_values.
  destruct (String.eqb s ""); [constructor|].
  apply Forall_map, Forall_forall. intros piece _. apply trim_trimmed.
Qed.

Lemma values_of_tagged (name other : string) (l : list string) :
  values_of name (map (fun v => (other, v)) l)
  = if String.eqb other name then l else [].
Proof.
  unfold values_of. induction l as [|v l IH]; cbn [map filter fst].
  - now destruct (String.eqb other name).
  - destruct (String.eqb other name) eqn:E; cbn [map snd]; [now rewrite IH|exact IH].
Qed.

Lemma values_of_app (name : string) (a b : list (string * string)) :
  values_of name (a ++ b) = values_of name a ++ values_of name b.
Proof. unfold values_of. now rewrite filter_app, map_app. Qed.

(** The filters of the environment become repeated query parameters:
    for each variable that is set and not empty, one parameter per
    comma-separated piece (so one more than it has commas, an empty piece
    included), trimmed of white space at both ends, under the variable's
    own name and in the order written; an unset or empty variable gives
    none. *)
Theorem filters_become_repeated_parameters (domains recordedBy teams : option string) :
  List.length (filter_params domains recordedBy teams)
  = (pieces domains + pieces recordedBy + pieces teams)%nat
  /\ Forall (fun kv => trimmed (snd kv)) (filter_params domains recordedBy teams)
  /\ values_of "calendar_invitees_domains" (filter_params domains recordedBy teams)
     = env_values domains
  /\ values_of "recorded_by" (filter_params domains recordedBy teams)
     = env_values recordedBy
  /\ values_of "teams" (filter_params domains recordedBy teams) = env_values teams
  /\ values_of "cursor" (filter_params domains recordedBy teams) = [].
Proof.
  unfold filter_params. split; [|split].
  - rewrite !length_app, !length_map, !env_values_length. lia.
  - rewrite !Forall_app. repeat split; apply Forall_map;
      (eapply Forall_impl; [|apply env_values_trimmed]); auto.
  - repeat split; rewrite !values_of_app, !values_of_tagged;
      cbn [String.eqb Ascii.eqb Bool.eqb]; cbv iota;
      now rewrite ?app_nil_r.
Qed.

(* ===================================================================== *)
(** ** The connection test *)
(* ===================================================================== *)

Lemma utf8_surrogate (x : N) :
  (55296 <= x < 57344)%N ->
  utf8 x = String (ascii_of_N 237)
             (String (ascii_of_N (128 + (x / 64) mod 64))
                (String (ascii_of_N (128 + x mod 64)) "")).
Proof.
  intros Hx. unfold utf8.
  assert ((x <? 128) = false)%N as -> by (apply N.ltb_ge; lia).
  assert ((x <? 2048) = false)%N as -> by (apply N.ltb_ge; lia).
  assert ((x <? 65536) = true)%N as -> by (apply N.ltb_lt; lia).
  assert (x / 4096 = 13)%N as ->.
  { symmetry. apply (N.div_unique x 4096 13 (x - 53248)); lia. }
  reflexivity.
Qed.

Lemma high_surrogate_shape (cp : string) :
  String.length cp = 4%nat ->
  exists y z, high_surrogate cp = String (ascii_of_N 237) (String y (String z "")).
Proof.
  destruct cp as [|a [|b [|c [|d [|e r]]]]]; try discriminate. intros _.
  cbn [high_surrogate].
  set (n := (N_of_ascii a mod 8 * 262144 + N_of_ascii b mod 64 * 4096
             + N_of_ascii c mod 64 * 64 + N_of_ascii d mod 64)%N).
  assert (n <= 2097151)%N as Hn.
  { pose proof (N.mod_lt (N_of_ascii a) 8). pose proof (N.mod_lt (N_of_ascii b) 64).
    pose proof (N.mod_lt (N_of_ascii c) 64). pose proof (N.mod_lt (N_of_ascii d) 64).
    subst n. lia. }
  assert ((n - 65536) / 1024 <= 1984)%N as Hq.
  { apply N.Div0.div_le_upper_bound. lia. }
  set (q := ((n - 65536) / 1024)%N) in *.
  rewrite utf8_surrogate by lia. now eexists _, _.
Qed.

Lemma high_surrogate_fits (cp : string) (behind : nat) :
  String.length cp = 4%nat ->
  piece_fits (high_surrogate cp) behind /\ utf16_units (high_surrogate cp) = 1%nat
  /\ String.length (high_surrogate cp) = 3%nat.
Proof.
  intros H. destruct (high_surrogate_shape cp H) as (y & z & ->).
  split; [now left|]. split; reflexivity.
Qed.

Lemma utf16_units_two (cp : string) :
  (utf16_units cp =? 2)%nat = true -> String.length cp = 4%nat.
Proof.
  unfold utf16_units. destruct (String.length cp =? 4)%nat eqn:E; [|discriminate].
  intros _. now apply Nat.eqb_eq.
Qed.

Lemma utf16_units_one (cp : string) :
  (utf16_units cp =? 2)%nat = false -> utf16_units cp = 1%nat.
Proof. unfold utf16_units. now destruct (String.length cp =? 4)%nat. Qed.

Lemma take_units_units (l : list string) :
  forall n, (list_sum (map utf16_units (take_units n l)) <= n)%nat.
Proof.
  induction l as [|cp l IH]; intros [|m]; cbn [take_units map list_sum fold_right];
    try lia.
  destruct (utf16_units cp =? 2)%nat eqn:E.
  - pose proof (utf16_units_two cp E) as H4. apply Nat.eqb_eq in E.
    destruct m as [|m']; cbn [map list_sum fold_right].
    + destruct (high_surrogate_fits cp 0 H4) as (_ & -> & _). lia.
    + specialize (IH m'). unfold list_sum in IH. lia.
  - pose proof (utf16_units_one cp E) as H1. clear E.
    cbn [map list_sum fold_right]. specialize (IH m). unfold list_sum in IH. lia.
Qed.

Lemma take_units_all (l : list string) :
  forall n, (list_sum (map utf16_units l) <= n)%nat -> take_units n l = l.
Proof.
  induction l as [|cp l IH]; intros [|m]; cbn [take_units map list_sum fold_right];
    try reflexivity.
  - unfold utf16_units at 1. destruct (String.length cp =? 4)%nat; lia.
  - intros H. destruct (utf16_units cp =? 2)%nat eqn:E.
    + apply Nat.eqb_eq in E. destruct m as [|m']; [lia|].
      rewrite IH; [reflexivity|]. unfold list_sum. lia.
    + pose proof (utf16_units_one cp E) as H1. clear E.
      rewrite IH; [reflexivity|]. unfold list_sum. lia.
Qed.

Lemma take_units_length (l : list string) :
  forall n, (String.length (String.concat "" (take_units n l))
             <= String.length (String.concat "" l))%nat.
Proof.
  induction l as [|cp l IH]; intros [|m]; cbn [take_units];
    try (cbn; lia).
  rewrite (concat_cons cp l), length_append.
  destruct (utf16_units cp =? 2)%nat eqn:E.
  - pose proof (utf16_units_two cp E) as H4. clear E. destruct m as [|m'].
    + destruct (high_surrogate_fits cp 0 H4) as (_ & _ & H3).
      cbn [String.concat]. rewrite H3, H4. lia.
    + rewrite concat_cons, length_append. specialize (IH m'). lia.
  - clear E. rewrite concat_cons, length_append. specialize (IH m). lia.
Qed.

Lemma piece_fits_less (cp : string) (behind behind' : nat) :
  (behind' <= behind)%nat -> piece_fits cp behind -> piece_fits cp behind'.
Proof.
  destruct cp as [|a r]; [auto|]. cbn [piece_fits].
  intros Hle [H|[-> H]]; [now left|right; split; [reflexivity|lia]].
Qed.

Lemma take_units_well_cut (l : list string) :
  forall n, well_cut l -> well_cut (take_units n l).
Proof.
  induction l as [|cp l IH]; intros [|m]; cbn [take_units well_cut]; auto.
  intros [Hcp Hl]. destruct (utf16_units cp =? 2)%nat eqn:E.
  - destruct m as [|m'].
    + cbn [well_cut]. split; [|exact I].
      now destruct (high_surrogate_fits cp (String.length (String.concat "" []))
                      (utf16_units_two cp E)) as (H & _).
    + cbn [well_cut]. split; [|now apply IH].
      apply (piece_fits_less cp _ _ (take_units_length l m') Hcp).
  - cbn [well_cut]. split; [|now apply IH].
    apply (piece_fits_less cp _ _ (take_units_length l m) Hcp).
Qed.

(** The preview holds at most 200 code units, and the whole text when it
    is that short. *)
Lemma preview_bounds (text : string) :
  (utf16_length (preview text) <= 200)%nat
  /\ ((utf16_length text <= 200)%nat -> preview text = text).
Proof.
  unfold preview, utf16_length. split.
  - rewrite code_points_concat.
    + apply take_units_units.
    + apply take_units_well_cut, code_points_well_cut.
  - intros H. rewrite (take_units_all _ _ H). apply concat_code_points.
Qed.

(** The connection test answers 200 exactly when a key is set and its
    upstream call resolved, whatever status that call came back with; the
    status is passed on in the body, with a preview that holds at most
    200 code units of the upstream text and is all of it when it is that
    short.  With [VERCEL_ENV] set to production no reply has a stack. *)
Theorem connection_test_reports_upstream (apiKey baseEnv vercelEnv : option string)
    (o : probe_outcome) :
  (code (test_connection apiKey baseEnv vercelEnv o) = 200
   \/ code (test_connection apiKey baseEnv vercelEnv o) = 500)
  /\ (code (test_connection apiKey baseEnv vercelEnv o) = 200 <->
      key_set apiKey = true /\ exists st txt t hs, o = ProbeResolves st txt t hs)
  /\ (forall st txt t hs,
        key_set apiKey = true -> o = ProbeResolves st txt t hs ->
        member (body (test_connection apiKey baseEnv vercelEnv o)) "httpStatus" = VNum st
        /\ exists shown,
             member (body (test_connection apiKey baseEnv vercelEnv o)) "responsePreview"
             = VStr shown
             /\ (utf16_length shown <= 200)%nat
             /\ ((utf16_length t <= 200)%nat -> shown = t))
  /\ (vercelEnv = Some "production" ->
      member (body (test_connection apiKey baseEnv vercelEnv o)) "stack" = VUndef).
Proof.
  unfold test_connection. destruct (key_set apiKey) eqn:Hk; cbn [negb].
  - destruct o as [st txt t hs|m c ca sk]; cbn [code body].
    + split; [now left|]. split; [|split].
      * split; [intros _; split; [reflexivity|now exists st, txt, t, hs]|reflexivity].
      * intros st' txt' t' hs' _ Ho. injection Ho as <- <- <- <-.
        split; [reflexivity|]. exists (preview t).
        destruct (preview_bounds t) as [Hl Hall]. now repeat split.
      * intros _. reflexivity.
    + split; [now right|]. split; [|split].
      * split; [discriminate|]. intros [_ (st & txt & t & hs & Ho)]. discriminate.
      * intros st txt t hs _ Ho. discriminate.
      * intros ->. reflexivity.
  - cbn [code body]. split; [now right|]. split; [|split].
    + split; [discriminate|]. intros [Hf _]. discriminate.
    + intros st txt t hs Hf. discriminate.
    + intros _. reflexivity.
Qed.

Lemma connection_test_reports_upstream_witness :
  code (test_connection (Some "key") None (Some "production")
          (ProbeResolves 401 "Unauthorized" "denied" [])) = 200
  /\ member (body (test_connection (Some "key") None (Some "production")
                     (ProbeRejects (VStr "fetch failed") VUndef VUndef (VStr "at fetch"))))
       "stack" = VUndef.
Proof.
  split.
  - apply (connection_test_reports_upstream (Some "key") None (Some "production")
             (ProbeResolves 401 "Unauthorized" "denied" [])).
    split; [reflexivity|]. now exists 401, "Unauthorized", "denied", [].
  - apply (connection_test_reports_upstream (Some "key") None (Some "production")
             (ProbeRejects (VStr "fetch failed") VUndef VUndef (VStr "at fetch"))).
    reflexivity.
Defined.
